(** * influxdb-proxy: the query admission check of proxy.go

    The development has three layers.

    - [strings]: the two functions of Go's strings package that proxy.go
      calls, over byte strings.
    - [influxql]: the part of github.com/influxdata/influxql (v1.1.0, the
      version pinned in go.mod) that the admission check touches: the
      statement tree, [Sources.Measurements], the leading keyword of every
      statement's [String] rendering, and an executable scanner and parser
      for the SELECT / DROP / SHOW fragment that the tests of the repository
      exercise.
    - the proxy itself: [lookup], [allowed], [reportError] and
      [Proxy_ServeHTTP], written after proxy.go.

    [allowed] and the handler take the parser as a parameter, so every
    general theorem holds whatever the parser answers; closed examples plug
    in [influxql.ParseStatement]. *)

From Stdlib Require Import String Ascii List Bool Arith ZArith Lia.
From Stdlib Require Import DecimalString.
Import ListNotations.

Set Warnings "-register-all".
Local Open Scope string_scope.
Local Open Scope list_scope.

(** ** Go's strings package (bytes below 128; other bytes are left alone) *)

Module strings.

Definition isUpper (c : ascii) : bool :=
  (65 <=? nat_of_ascii c)%nat && (nat_of_ascii c <=? 90)%nat.

Definition toLowerByte (c : ascii) : ascii :=
  if isUpper c then ascii_of_nat (nat_of_ascii c + 32) else c.

Fixpoint ToLower (s : string) : string :=
  match s with
  | EmptyString => EmptyString
  | String c rest => String (toLowerByte c) (ToLower rest)
  end.

Fixpoint HasPrefix (s prefix : string) : bool :=
  match prefix, s with
  | EmptyString, _ => true
  | String _ _, EmptyString => false
  | String p prefix', String c s' => Ascii.eqb c p && HasPrefix s' prefix'
  end.

Fixpoint Join (elems : list string) (sep : string) : string :=
  match elems with
  | [] => EmptyString
  | [e] => e
  | e :: rest => e ++ sep ++ Join rest sep
  end.

(** [strings.Split].  With a separator that is not empty, [s] is cut at
    every occurrence of it, found from the left and not overlapping: [skip]
    counts the bytes of an occurrence still to pass, [cur] is the piece
    being read.  With the empty separator [s] is cut after every byte (the
    library cuts after every UTF-8 sequence). *)
Fixpoint genSplit (sep s : string) (skip : nat) (cur : string) : list string :=
  match s with
  | EmptyString => [cur]
  | String c rest =>
      match skip with
      | S k => genSplit sep rest k cur
      | O =>
          if HasPrefix s sep
          then cur :: genSplit sep rest (String.length sep - 1) EmptyString
          else genSplit sep rest 0 (cur ++ String c EmptyString)
      end
  end.

Fixpoint explode (s : string) : list string :=
  match s with
  | EmptyString => []
  | String c rest => String c EmptyString :: explode rest
  end.

Definition Split (s sep : string) : list string :=
  match sep with
  | EmptyString => explode s
  | _ => genSplit sep s 0 EmptyString
  end.

End strings.

(** ** The influxql library *)

Module influxql.

(** *** Tokens (token.go) *)

Inductive Token : Type :=
| ILLEGAL | EOF | WS | COMMENT
| IDENT | BOUNDPARAM | NUMBER | INTEGER | DURATIONVAL | STRING
| BADSTRING | BADESCAPE | TRUE | FALSE | REGEX | BADREGEX
| ADD | SUB | MUL | DIV | MOD | BITWISE_AND | BITWISE_OR | BITWISE_XOR
| AND | OR
| EQ | NEQ | EQREGEX | NEQREGEX | LT | LTE | GT | GTE
| LPAREN | RPAREN | COMMA | COLON | DOUBLECOLON | SEMICOLON | DOT
| KEYWORD (name : string).

Definition Token_eqb (a b : Token) : bool :=
  match a, b with
  | ILLEGAL, ILLEGAL | EOF, EOF | WS, WS | COMMENT, COMMENT
  | IDENT, IDENT | BOUNDPARAM, BOUNDPARAM | NUMBER, NUMBER
  | INTEGER, INTEGER | DURATIONVAL, DURATIONVAL | STRING, STRING
  | BADSTRING, BADSTRING | BADESCAPE, BADESCAPE | TRUE, TRUE
  | FALSE, FALSE | REGEX, REGEX | BADREGEX, BADREGEX
  | ADD, ADD | SUB, SUB | MUL, MUL | DIV, DIV | MOD, MOD
  | BITWISE_AND, BITWISE_AND | BITWISE_OR, BITWISE_OR
  | BITWISE_XOR, BITWISE_XOR | AND, AND | OR, OR
  | EQ, EQ | NEQ, NEQ | EQREGEX, EQREGEX | NEQREGEX, NEQREGEX
  | LT, LT | LTE, LTE | GT, GT | GTE, GTE
  | LPAREN, LPAREN | RPAREN, RPAREN | COMMA, COMMA | COLON, COLON
  | DOUBLECOLON, DOUBLECOLON | SEMICOLON, SEMICOLON | DOT, DOT => true
  | KEYWORD x, KEYWORD y => String.eqb x y
  | _, _ => false
  end.

(** The reserved words between keywordBeg and keywordEnd, in lower case. *)
Definition keywords : list string :=
  [ "all"; "alter"; "analyze"; "any"; "as"; "asc"; "begin"; "by";
    "cardinality"; "create"; "continuous"; "database"; "databases";
    "default"; "delete"; "desc"; "destinations"; "diagnostics"; "distinct";
    "drop"; "duration"; "end"; "every"; "exact"; "explain"; "field"; "for";
    "from"; "grant"; "grants"; "group"; "groups"; "in"; "inf"; "insert";
    "into"; "key"; "keys"; "kill"; "limit"; "measurement"; "measurements";
    "name"; "offset"; "on"; "order"; "password"; "policy"; "policies";
    "privileges"; "queries"; "query"; "read"; "replication"; "resample";
    "retention"; "revoke"; "select"; "series"; "set"; "show"; "shard";
    "shards"; "slimit"; "soffset"; "stats"; "subscription"; "subscriptions";
    "tag"; "to"; "user"; "users"; "values"; "verbose"; "where"; "with";
    "write" ].

Definition toUpperByte (c : ascii) : ascii :=
  if (97 <=? nat_of_ascii c)%nat && (nat_of_ascii c <=? 122)%nat
  then ascii_of_nat (nat_of_ascii c - 32) else c.

Fixpoint ToUpper (s : string) : string :=
  match s with
  | EmptyString => EmptyString
  | String c rest => String (toUpperByte c) (ToUpper rest)
  end.

(** [Lookup] returns the token of an identifier: a keyword, AND, OR, TRUE,
    FALSE, or IDENT. *)
Definition Lookup (ident : string) : Token :=
  let l := strings.ToLower ident in
  if String.eqb l "and" then AND
  else if String.eqb l "or" then OR
  else if String.eqb l "true" then TRUE
  else if String.eqb l "false" then FALSE
  else if existsb (String.eqb l) keywords then KEYWORD (ToUpper l)
  else IDENT.

Definition SELECT := KEYWORD "SELECT".
Definition FROM := KEYWORD "FROM".
Definition WHERE := KEYWORD "WHERE".
Definition GROUP := KEYWORD "GROUP".
Definition BY := KEYWORD "BY".
Definition AS := KEYWORD "AS".
Definition INTO := KEYWORD "INTO".
Definition ORDER := KEYWORD "ORDER".
Definition LIMIT := KEYWORD "LIMIT".
Definition OFFSET := KEYWORD "OFFSET".
Definition SLIMIT := KEYWORD "SLIMIT".
Definition SOFFSET := KEYWORD "SOFFSET".
Definition DROP := KEYWORD "DROP".
Definition SHOW := KEYWORD "SHOW".
Definition DATABASE := KEYWORD "DATABASE".
Definition DATABASES := KEYWORD "DATABASES".
Definition MEASUREMENT := KEYWORD "MEASUREMENT".
Definition USERS := KEYWORD "USERS".
Definition EXPLAIN := KEYWORD "EXPLAIN".
Definition ANALYZE := KEYWORD "ANALYZE".
Definition DISTINCT := KEYWORD "DISTINCT".

(** [Token.String]: the printed name of a token. *)
Definition Token_String (t : Token) : string :=
  match t with
  | ILLEGAL => "ILLEGAL" | EOF => "EOF" | WS => "WS" | COMMENT => "COMMENT"
  | IDENT => "IDENT" | BOUNDPARAM => "BOUNDPARAM" | NUMBER => "NUMBER"
  | INTEGER => "INTEGER" | DURATIONVAL => "DURATIONVAL" | STRING => "STRING"
  | BADSTRING => "BADSTRING" | BADESCAPE => "BADESCAPE"
  | TRUE => "TRUE" | FALSE => "FALSE" | REGEX => "REGEX"
  | BADREGEX => "BADREGEX"
  | ADD => "+" | SUB => "-" | MUL => "*" | DIV => "/" | MOD => "%"
  | BITWISE_AND => "&" | BITWISE_OR => "|" | BITWISE_XOR => "^"
  | AND => "AND" | OR => "OR"
  | EQ => "=" | NEQ => "!=" | EQREGEX => "=~" | NEQREGEX => "!~"
  | LT => "<" | LTE => "<=" | GT => ">" | GTE => ">="
  | LPAREN => "(" | RPAREN => ")" | COMMA => "," | COLON => ":"
  | DOUBLECOLON => "::" | SEMICOLON => ";" | DOT => "."
  | KEYWORD name => name
  end.

(** [tokstr]: the literal if there is one, the token's name otherwise. *)
Definition tokstr (tok : Token) (lit : string) : string :=
  if String.eqb lit EmptyString then Token_String tok else lit.

Definition isOperator (t : Token) : bool :=
  match t with
  | ADD | SUB | MUL | DIV | MOD | BITWISE_AND | BITWISE_OR | BITWISE_XOR
  | AND | OR | EQ | NEQ | EQREGEX | NEQREGEX | LT | LTE | GT | GTE => true
  | _ => false
  end.

Definition Precedence (t : Token) : nat :=
  match t with
  | OR => 1
  | AND => 2
  | EQ | NEQ | EQREGEX | NEQREGEX | LT | LTE | GT | GTE => 3
  | ADD | SUB | BITWISE_OR | BITWISE_XOR => 4
  | MUL | DIV | MOD | BITWISE_AND => 5
  | _ => 0
  end.

Definition IsRegexOp (t : Token) : bool :=
  match t with EQREGEX | NEQREGEX => true | _ => false end.

(** *** The scanner (scanner.go)

    The reader hands out the runes of the query one by one; a carriage
    return, alone or before a line feed, is read as a line feed.  Positions
    are not tracked: nothing in the proxy looks at them. *)

Definition chTab : ascii := "009"%char.
Definition chLF : ascii := "010"%char.
Definition chCR : ascii := "013"%char.
Definition chDQuote : ascii := "034"%char.
Definition chSQuote : ascii := "039"%char.
Definition chBackslash : ascii := "092"%char.

Fixpoint readerNormalize (s : string) : string :=
  match s with
  | EmptyString => EmptyString
  | String c rest =>
      if Ascii.eqb c chCR then
        match rest with
        | String c' rest' =>
            if Ascii.eqb c' chLF then String chLF (readerNormalize rest')
            else String chLF (readerNormalize rest)
        | EmptyString => String chLF EmptyString
        end
      else String c (readerNormalize rest)
  end.

Definition isWhitespace (ch : ascii) : bool :=
  Ascii.eqb ch " " || Ascii.eqb ch chTab || Ascii.eqb ch chLF.

Definition isLetter (ch : ascii) : bool :=
  let n := nat_of_ascii ch in
  ((97 <=? n)%nat && (n <=? 122)%nat) || ((65 <=? n)%nat && (n <=? 90)%nat).

Definition isDigit (ch : ascii) : bool :=
  let n := nat_of_ascii ch in (48 <=? n)%nat && (n <=? 57)%nat.

Definition isIdentChar (ch : ascii) : bool :=
  isLetter ch || isDigit ch || Ascii.eqb ch "_".

Definition isIdentFirstChar (ch : ascii) : bool :=
  isLetter ch || Ascii.eqb ch "_".

Definition str1 (c : ascii) : string := String c EmptyString.

(** The bytes of U+FFFD, what Go's string(rune) gives for the eof rune. *)
Definition replacementChar : string :=
  String "239"%char (String "191"%char (String "189"%char EmptyString)).

Fixpoint scanWhitespace (s : string) : string * string :=
  match s with
  | String c rest =>
      if isWhitespace c
      then let '(w, r) := scanWhitespace rest in (String c w, r)
      else (EmptyString, s)
  | EmptyString => (EmptyString, EmptyString)
  end.

Inductive scanned : Type :=
| Scanned (tok : Token) (lit : string) (rest : string).

(** [ScanString]'s loop, after the opening quote [ending] has been read. *)
Fixpoint scanStringLoop (ending : ascii) (s acc : string) : scanned :=
  match s with
  | EmptyString => Scanned BADSTRING acc EmptyString
  | String ch0 s' =>
      if Ascii.eqb ch0 ending then Scanned STRING acc s'
      else if Ascii.eqb ch0 chLF then Scanned BADSTRING acc s'
      else if Ascii.eqb ch0 chBackslash then
        match s' with
        | EmptyString =>
            Scanned BADESCAPE (str1 ch0 ++ replacementChar) EmptyString
        | String ch1 s'' =>
            if Ascii.eqb ch1 "n" then scanStringLoop ending s'' (acc ++ str1 chLF)
            else if Ascii.eqb ch1 chBackslash
            then scanStringLoop ending s'' (acc ++ str1 chBackslash)
            else if Ascii.eqb ch1 chDQuote
            then scanStringLoop ending s'' (acc ++ str1 chDQuote)
            else if Ascii.eqb ch1 chSQuote
            then scanStringLoop ending s'' (acc ++ str1 chSQuote)
            else Scanned BADESCAPE (str1 ch0 ++ str1 ch1) s''
        end
      else scanStringLoop ending s' (acc ++ str1 ch0)
  end.

(** [Scanner.scanString]: [s] starts at the opening quote. *)
Definition scanString (s : string) : scanned :=
  match s with
  | EmptyString => Scanned BADSTRING EmptyString EmptyString
  | String ending s' => scanStringLoop ending s' EmptyString
  end.

(** [Scanner.scanIdent]: bare identifier characters are gathered until a
    character that is none; a double quote at any point hands over to
    [scanString], whose literal replaces what was gathered. *)
Fixpoint scanIdentLoop (s buf : string) : scanned + (string * string) :=
  match s with
  | EmptyString => inr (buf, EmptyString)
  | String ch s' =>
      if Ascii.eqb ch chDQuote then
        match scanString s with
        | Scanned STRING lit0 rest => inl (Scanned IDENT lit0 rest)
        | bad => inl bad
        end
      else if isIdentChar ch then scanIdentLoop s' (buf ++ str1 ch)
      else inr (buf, s)
  end.

Definition scanIdent (lookup : bool) (s : string) : scanned :=
  match scanIdentLoop s EmptyString with
  | inl r => r
  | inr (lit, rest) =>
      if lookup then
        match Lookup lit with
        | IDENT => Scanned IDENT lit rest
        | tok => Scanned tok EmptyString rest
        end
      else Scanned IDENT lit rest
  end.

Fixpoint scanDigits (s : string) : string * string :=
  match s with
  | String c rest =>
      if isDigit c then let '(d, r) := scanDigits rest in (String c d, r)
      else (EmptyString, s)
  | EmptyString => (EmptyString, EmptyString)
  end.

Fixpoint scanLettersDigits (s : string) : string * string :=
  match s with
  | String c rest =>
      if isLetter c || isDigit c
      then let '(d, r) := scanLettersDigits rest in (String c d, r)
      else (EmptyString, s)
  | EmptyString => (EmptyString, EmptyString)
  end.

(** [Scanner.scanNumber]: [s] starts at the first digit, or at a full stop
    that a digit follows. *)
Definition scanNumber (s : string) : scanned :=
  let '(d1, r1) := scanDigits s in
  match r1 with
  | String "." r2 =>
      match r2 with
      | String c _ =>
          if isDigit c then
            let '(d2, r3) := scanDigits r2 in
            Scanned NUMBER (d1 ++ "." ++ d2) r3
          else Scanned NUMBER d1 r2
      | EmptyString => Scanned NUMBER d1 r2
      end
  | String c _ =>
      if isLetter c then
        let '(u, r2) := scanLettersDigits r1 in Scanned DURATIONVAL (d1 ++ u) r2
      else Scanned INTEGER d1 r1
  | EmptyString => Scanned INTEGER d1 r1
  end.

Fixpoint skipUntilNewline (s : string) : string :=
  match s with
  | EmptyString => EmptyString
  | String c rest => if Ascii.eqb c chLF then rest else skipUntilNewline rest
  end.

(** [None] when the input ends inside the comment. *)
Fixpoint skipUntilEndComment (s : string) : option string :=
  match s with
  | EmptyString => None
  | String c rest =>
      if Ascii.eqb c "*" then
        match rest with
        | String "/" rest' => Some rest'
        | _ => skipUntilEndComment rest
        end
      else skipUntilEndComment rest
  end.

(** [Scanner.Scan]: the next token of the raw input. *)
Definition rawScan (s : string) : scanned :=
  match s with
  | EmptyString => Scanned EOF EmptyString EmptyString
  | String ch0 s' =>
      if isWhitespace ch0 then
        let '(w, rest) := scanWhitespace s in Scanned WS w rest
      else if isLetter ch0 || Ascii.eqb ch0 "_" then scanIdent true s
      else if isDigit ch0 then scanNumber s
      else if Ascii.eqb ch0 chDQuote then scanIdent true s
      else if Ascii.eqb ch0 chSQuote then scanString s
      else
        match ch0, s' with
        | "."%char, String ch1 _ =>
            if isDigit ch1 then scanNumber s else Scanned DOT EmptyString s'
        | "."%char, EmptyString => Scanned DOT EmptyString s'
        | "$"%char, _ =>
            match scanIdent false s' with
            | Scanned IDENT lit rest => Scanned BOUNDPARAM ("$" ++ lit) rest
            | Scanned tok lit rest => Scanned tok ("$" ++ lit) rest
            end
        | "+"%char, _ => Scanned ADD EmptyString s'
        | "-"%char, String "-" rest => Scanned COMMENT EmptyString (skipUntilNewline rest)
        | "-"%char, _ => Scanned SUB EmptyString s'
        | "*"%char, _ => Scanned MUL EmptyString s'
        | "/"%char, String "*" rest =>
            match skipUntilEndComment rest with
            | Some rest' => Scanned COMMENT EmptyString rest'
            | None => Scanned ILLEGAL EmptyString EmptyString
            end
        | "/"%char, _ => Scanned DIV EmptyString s'
        | "%"%char, _ => Scanned MOD EmptyString s'
        | "&"%char, _ => Scanned BITWISE_AND EmptyString s'
        | "|"%char, _ => Scanned BITWISE_OR EmptyString s'
        | "^"%char, _ => Scanned BITWISE_XOR EmptyString s'
        | "="%char, String "~" rest => Scanned EQREGEX EmptyString rest
        | "="%char, _ => Scanned EQ EmptyString s'
        | "!"%char, String "=" rest => Scanned NEQ EmptyString rest
        | "!"%char, String "~" rest => Scanned NEQREGEX EmptyString rest
        | ">"%char, String "=" rest => Scanned GTE EmptyString rest
        | ">"%char, _ => Scanned GT EmptyString s'
        | "<"%char, String "=" rest => Scanned LTE EmptyString rest
        | "<"%char, String ">" rest => Scanned NEQ EmptyString rest
        | "<"%char, _ => Scanned LT EmptyString s'
        | "("%char, _ => Scanned LPAREN EmptyString s'
        | ")"%char, _ => Scanned RPAREN EmptyString s'
        | ","%char, _ => Scanned COMMA EmptyString s'
        | ";"%char, _ => Scanned SEMICOLON EmptyString s'
        | ":"%char, String ":" rest => Scanned DOUBLECOLON EmptyString rest
        | ":"%char, _ => Scanned COLON EmptyString s'
        | _, _ => Scanned ILLEGAL (str1 ch0) s'
        end
  end.

(** [ScanDelimited] with both delimiters a slash, the slash as the only
    escape and unknown escapes passed through: the loop after the opening
    slash.  [None] is any of its errors. *)
Fixpoint scanDelimitedLoop (s buf : string) : option string * string :=
  match s with
  | EmptyString => (None, EmptyString)
  | String ch0 s' =>
      if Ascii.eqb ch0 "/" then (Some buf, s')
      else if Ascii.eqb ch0 chLF then (None, s')
      else if Ascii.eqb ch0 chBackslash then
        match s' with
        | EmptyString => (None, EmptyString)
        | String ch1 s'' =>
            if Ascii.eqb ch1 "/" then scanDelimitedLoop s'' (buf ++ "/")
            else scanDelimitedLoop s' (buf ++ str1 ch0)
        end
      else scanDelimitedLoop s' (buf ++ str1 ch0)
  end.

(** [Scanner.ScanRegex] *)
Definition rawScanRegex (s : string) : scanned :=
  match s with
  | String "/" s' =>
      match scanDelimitedLoop s' EmptyString with
      | (Some b, rest) => Scanned REGEX b rest
      | (None, rest) => Scanned BADREGEX EmptyString rest
      end
  | String _ s' => Scanned BADREGEX EmptyString s'
  | EmptyString => Scanned BADREGEX EmptyString EmptyString
  end.

(** *** The statement tree (ast.go)

    Of [SelectStatement] the clauses that the modelled parser fills are
    kept.  A number literal keeps its text, a regular expression its
    pattern. *)

Inductive Expr : Type :=
| VarRef (Val : string)
| Call (Name : string) (Args : list Expr)
| BinaryExpr (Op : Token) (LHS RHS : Expr)
| ParenExpr (e : Expr)
| Wildcard
| IntegerLiteral (Val : Z)
| UnsignedLiteral (Val : Z)
| NumberLiteral (text : string)
| StringLiteral (Val : string)
| BooleanLiteral (Val : bool)
| RegexLiteral (Val : string)
| Distinct (Val : string).

Record Field : Type := mkField { Field_Expr : Expr; Alias : string }.

(** A measurement of a FROM clause.  The parser sets either [Name] or
    [Regex]: a source given as a regular expression has the empty [Name]. *)
Record Measurement : Type := mkMeasurement {
  Database : string;
  RetentionPolicy : string;
  Name : string;
  Regex : option string
}.

Inductive Source : Type :=
| Source_Measurement (m : Measurement)
| SubQuery (Statement : SelectStatement)
with SelectStatement : Type :=
| mkSelectStatement
    (Fields : list Field)
    (Sources : list Source)
    (Condition : option Expr)
    (Dimensions : list Expr)
    (Limit Offset SLimit SOffset : Z).

Definition Sources (s : SelectStatement) : list Source :=
  match s with mkSelectStatement _ srcs _ _ _ _ _ _ => srcs end.

Definition Fields (s : SelectStatement) : list Field :=
  match s with mkSelectStatement f _ _ _ _ _ _ _ => f end.

(** [Sources.Measurements]: every measurement, those of subqueries
    included, in source order. *)
Fixpoint Source_Measurements (src : Source) : list Measurement :=
  match src with
  | Source_Measurement m => [m]
  | SubQuery (mkSelectStatement _ srcs _ _ _ _ _ _) =>
      (fix walk (a : list Source) : list Measurement :=
         match a with
         | [] => []
         | src' :: rest => Source_Measurements src' ++ walk rest
         end) srcs
  end.

Fixpoint Measurements (a : list Source) : list Measurement :=
  match a with
  | [] => []
  | src :: rest => Source_Measurements src ++ Measurements rest
  end.

(** The statements other than SELECT of which the proxy only ever sees the
    rendering; each is known by the words its [String] method writes
    first. *)
Inductive StatementKind : Type :=
| AlterRetentionPolicy | CreateContinuousQuery | CreateDatabase
| CreateRetentionPolicy | CreateSubscription | CreateUser
| Delete | DeleteSeries | DropContinuousQuery | DropRetentionPolicy
| DropSeries | DropShard | DropSubscription | DropUser
| Grant | GrantAdmin | KillQuery | Revoke | RevokeAdmin | SetPasswordUser
| ShowContinuousQueries | ShowDiagnostics | ShowFieldKeyCardinality
| ShowFieldKeys | ShowGrantsForUser | ShowMeasurementCardinality
| ShowMeasurements | ShowQueries | ShowRetentionPolicies | ShowSeries
| ShowSeriesCardinality | ShowShardGroups | ShowShards | ShowStats
| ShowSubscriptions | ShowTagKeyCardinality | ShowTagKeys
| ShowTagValues | ShowTagValuesCardinality.

Definition StatementKind_leading (k : StatementKind) : string :=
  match k with
  | AlterRetentionPolicy => "ALTER RETENTION POLICY "
  | CreateContinuousQuery => "CREATE CONTINUOUS QUERY "
  | CreateDatabase => "CREATE DATABASE "
  | CreateRetentionPolicy => "CREATE RETENTION POLICY "
  | CreateSubscription => "CREATE SUBSCRIPTION "
  | CreateUser => "CREATE USER "
  | Delete => "DELETE FROM "
  | DeleteSeries => "DELETE"
  | DropContinuousQuery => "DROP CONTINUOUS QUERY "
  | DropRetentionPolicy => "DROP RETENTION POLICY "
  | DropSeries => "DROP SERIES"
  | DropShard => "DROP SHARD "
  | DropSubscription => "DROP SUBSCRIPTION "
  | DropUser => "DROP USER "
  | Grant => "GRANT "
  | GrantAdmin => "GRANT ALL PRIVILEGES TO "
  | KillQuery => "KILL QUERY "
  | Revoke => "REVOKE "
  | RevokeAdmin => "REVOKE ALL PRIVILEGES FROM "
  | SetPasswordUser => "SET PASSWORD FOR "
  | ShowContinuousQueries => "SHOW CONTINUOUS QUERIES"
  | ShowDiagnostics => "SHOW DIAGNOSTICS"
  | ShowFieldKeyCardinality => "SHOW FIELD KEY "
  | ShowFieldKeys => "SHOW FIELD KEYS"
  | ShowGrantsForUser => "SHOW GRANTS FOR "
  | ShowMeasurementCardinality => "SHOW MEASUREMENT "
  | ShowMeasurements => "SHOW MEASUREMENTS"
  | ShowQueries => "SHOW QUERIES"
  | ShowRetentionPolicies => "SHOW RETENTION POLICIES"
  | ShowSeries => "SHOW SERIES"
  | ShowSeriesCardinality => "SHOW SERIES "
  | ShowShardGroups => "SHOW SHARD GROUPS"
  | ShowShards => "SHOW SHARDS"
  | ShowStats => "SHOW STATS"
  | ShowSubscriptions => "SHOW SUBSCRIPTIONS"
  | ShowTagKeyCardinality => "SHOW TAG KEY "
  | ShowTagKeys => "SHOW TAG KEYS"
  | ShowTagValues => "SHOW TAG VALUES"
  | ShowTagValuesCardinality => "SHOW TAG VALUES "
  end.

(** The [Statement] interface: the statement types of the library.  Those
    the modelled parser builds carry their fields; the others carry their
    kind and the text their rendering goes on with. *)
Inductive Statement : Type :=
| SelectStmt (s : SelectStatement)
| ExplainStmt (Analyze : bool) (s : SelectStatement)
| DropDatabaseStmt (Name : string)
| DropMeasurementStmt (Name : string)
| ShowDatabasesStmt
| ShowUsersStmt
| OtherStmt (kind : StatementKind) (tail : string).

(** [IdentNeedsQuotes] and [QuoteIdent] *)
Fixpoint allIdentChars (s : string) : bool :=
  match s with
  | EmptyString => true
  | String c rest => isIdentChar c && allIdentChars rest
  end.

Definition IdentNeedsQuotes (ident : string) : bool :=
  match Lookup ident with
  | IDENT =>
      match ident with
      | EmptyString => false
      | String c rest => negb (isIdentFirstChar c) || negb (allIdentChars rest)
      end
  | _ => true
  end.

(** The replacer of [QuoteIdent]: line feed, backslash and double quote are
    written with a backslash. *)
Fixpoint qiReplace (s : string) : string :=
  match s with
  | EmptyString => EmptyString
  | String c rest =>
      (if Ascii.eqb c chLF then str1 chBackslash ++ "n"
       else if Ascii.eqb c chBackslash then str1 chBackslash ++ str1 chBackslash
       else if Ascii.eqb c chDQuote then str1 chBackslash ++ str1 chDQuote
       else str1 c) ++ qiReplace rest
  end.

Fixpoint quoteIdentFrom (i : nat) (segments : list string) : string :=
  match segments with
  | [] => EmptyString
  | segment :: rest =>
      let last := match rest with [] => true | _ => false end in
      let empty := String.eqb segment EmptyString in
      let needQuote :=
        IdentNeedsQuotes segment
        || (negb last && negb empty)
        || (((i =? 0)%nat || last) && empty) in
      (if needQuote then str1 chDQuote else EmptyString)
      ++ qiReplace segment
      ++ (if needQuote then str1 chDQuote else EmptyString)
      ++ (if last then EmptyString else ".")
      ++ quoteIdentFrom (S i) rest
  end.

Definition QuoteIdent (segments : list string) : string :=
  quoteIdentFrom 0 segments.

(** *** The parser (parser.go)

    A [ParseError] is the library's, without its position; the texts the
    library prints with a line and a character number are given without
    them. *)

Record ParseError : Type := mkParseError {
  Message : string;
  Found : string;
  Expected : list string
}.

Definition ParseError_Error (e : ParseError) : string :=
  if String.eqb (Message e) EmptyString
  then "found " ++ Found e ++ ", expected " ++ strings.Join (Expected e) ", "
  else Message e.

Definition newParseError (found : string) (expected : list string) : ParseError :=
  mkParseError EmptyString found expected.

Definition messageError (msg : string) : ParseError :=
  mkParseError msg EmptyString [].

(** What the model answers for a construct it does not cover.  The library
    goes on parsing there. *)
Definition outsideFragment (what : string) : ParseError :=
  messageError ("not covered by the model of the parser: " ++ what).

(** The parser's state: the unread input, the tokens the buffered scanner
    remembers (the latest first, three at most) and how many of them have
    been unscanned. *)
Record PState : Type := mkPState {
  input : string;
  buf : list (Token * string);
  unscanned : nat
}.

Inductive Res (A : Type) : Type :=
| Ok (a : A) (st : PState)
| Fail (e : ParseError).
Arguments Ok {A} a st.
Arguments Fail {A} e.

Definition P (A : Type) : Type := PState -> Res A.

Definition ret {A} (a : A) : P A := fun st => Ok a st.
Definition fail {A} (e : ParseError) : P A := fun _ => Fail e.
Definition bind {A B} (c : P A) (k : A -> P B) : P B :=
  fun st => match c st with
            | Ok a st' => k a st'
            | Fail e => Fail e
            end.

Notation "x <- c ;; k" := (bind c (fun x => k))
  (at level 61, c at next level, right associativity).
Notation "' pat <- c ;; k" := (bind c (fun x => match x with pat => k end))
  (at level 61, pat pattern, c at next level, right associativity).
Notation "c ;;; k" := (bind c (fun _ => k))
  (at level 61, right associativity).

(** [bufScanner.ScanFunc]: an unscanned token is handed out again before
    anything new is read, whichever scanning function was asked for. *)
Definition scanFunc (scan : string -> scanned) : P (Token * string) :=
  fun st =>
    match unscanned st with
    | S k => Ok (nth k (buf st) (ILLEGAL, EmptyString))
                (mkPState (input st) (buf st) k)
    | O =>
        match scan (input st) with
        | Scanned tok lit rest =>
            Ok (tok, lit) (mkPState rest (firstn 3 ((tok, lit) :: buf st)) 0)
        end
    end.

Definition Scan : P (Token * string) := scanFunc rawScan.
Definition ScanRegex : P (Token * string) := scanFunc rawScanRegex.

Definition Unscan : P unit :=
  fun st => Ok tt (mkPState (input st) (buf st) (S (unscanned st))).

(** [peekRune] looks at the reader, past any unscanned token. *)
Definition peekRune : P (option ascii) :=
  fun st => Ok (match input st with
                | String c _ => Some c
                | EmptyString => None
                end) st.

Fixpoint scanIgnoreWhitespaceLoop (fuel : nat) : P (Token * string) :=
  '(tok, lit) <- Scan ;;
  match tok, fuel with
  | (WS | COMMENT), S fuel' => scanIgnoreWhitespaceLoop fuel'
  | _, _ => ret (tok, lit)
  end.

(** [ScanIgnoreWhitespace]: the next token that is neither white space nor
    a comment.  Every turn of its loop takes a token, of which no more are
    left than unread characters and buffered tokens. *)
Definition ScanIgnoreWhitespace : P (Token * string) :=
  fun st => scanIgnoreWhitespaceLoop (String.length (input st) + 4) st.

Definition consumeWhitespace : P unit :=
  '(tok, _) <- Scan ;;
  match tok with
  | WS => ret tt
  | _ => Unscan
  end.

Definition isWhitespaceRune (r : option ascii) : bool :=
  match r with Some c => isWhitespace c | None => false end.

(** [parseRegex]: a regular expression if a slash comes next.  The pattern
    is kept as text; that it compiles is not checked. *)
Definition parseRegex : P (option string) :=
  nextRune <- peekRune ;;
  (if isWhitespaceRune nextRune then consumeWhitespace else ret tt) ;;;
  nextRune <- peekRune ;;
  match nextRune with
  | Some "/"%char =>
      '(tok, lit) <- ScanRegex ;;
      match tok with
      | BADESCAPE => fail (messageError ("bad escape: " ++ lit))
      | BADREGEX => fail (messageError ("bad regex: " ++ lit))
      | REGEX => ret (Some lit)
      | _ => fail (newParseError (tokstr tok lit) ["regex"])
      end
  | _ => ret None
  end.

Definition ParseIdent : P string :=
  '(tok, lit) <- ScanIgnoreWhitespace ;;
  match tok with
  | IDENT => ret lit
  | _ => fail (newParseError (tokstr tok lit) ["identifier"])
  end.

(** [parseTokens] for one expected token. *)
Definition parseToken (expected : Token) : P unit :=
  '(tok, lit) <- ScanIgnoreWhitespace ;;
  if Token_eqb tok expected then ret tt
  else fail (newParseError (tokstr tok lit) [tokstr expected EmptyString]).

(** The loop of [parseSegmentedIdents] after the first identifier. *)
Fixpoint parseSegmentedIdentsLoop (fuel : nat) (idents : list string)
  : P (list string) :=
  match fuel with
  | O => fail (messageError "model: out of fuel")
  | S fuel' =>
      '(tok, _) <- Scan ;;
      match tok with
      | DOT =>
          ch <- peekRune ;;
          match ch with
          | Some "/"%char => ret idents
          | Some ":"%char => ret idents
          | Some "."%char => parseSegmentedIdentsLoop fuel' (idents ++ [EmptyString])
          | _ =>
              ident <- ParseIdent ;;
              parseSegmentedIdentsLoop fuel' (idents ++ [ident])
          end
      | _ => Unscan ;;; ret idents
      end
  end.

Definition parseSegmentedIdents : P (list string) :=
  ident <- ParseIdent ;;
  idents <- (fun st => parseSegmentedIdentsLoop (String.length (input st) + 4)
                         [ident] st) ;;
  if (3 <? List.length idents)%nat
  then fail (messageError ("too many segments in " ++ QuoteIdent idents))
  else ret idents.

Definition outOfFuel {A} : P A := fail (messageError "model: out of fuel").

(** The value of a run of decimal digits. *)
Fixpoint digitsValue (s : string) (acc : Z) : Z :=
  match s with
  | EmptyString => acc
  | String c rest =>
      digitsValue rest (10 * acc + Z.of_nat (nat_of_ascii c - 48))%Z
  end.

Definition maxInt64 : Z := 9223372036854775807%Z.
Definition maxUint64 : Z := 18446744073709551615%Z.

(** Where [ParseExpr] hangs a new operand: down the right spine, below the
    operators that bind less tightly than [op]. *)
Fixpoint insertBinary (root : Expr) (op : Token) (rhs : Expr) : Expr :=
  match root with
  | BinaryExpr op' l r =>
      if (Precedence op <=? Precedence op')%nat
      then BinaryExpr op root rhs
      else BinaryExpr op' l (insertBinary r op rhs)
  | _ => BinaryExpr op root rhs
  end.

Definition parseVarRef : P Expr :=
  segments <- parseSegmentedIdents ;;
  '(tok, _) <- Scan ;;
  match tok with
  | DOUBLECOLON => fail (outsideFragment "type cast")
  | _ => Unscan ;;; ret (VarRef (strings.Join segments "."))
  end.

Fixpoint ParseExpr (fuel : nat) : P Expr :=
  match fuel with
  | O => outOfFuel
  | S fuel' => rhs <- parseUnaryExpr fuel' ;; parseExprLoop fuel' rhs
  end

with parseExprLoop (fuel : nat) (root : Expr) : P Expr :=
  match fuel with
  | O => outOfFuel
  | S fuel' =>
      '(op, _) <- ScanIgnoreWhitespace ;;
      if negb (isOperator op) then Unscan ;;; ret root
      else
        rhs <- (if IsRegexOp op then
                  re <- parseRegex ;;
                  match re with
                  | Some r => ret (RegexLiteral r)
                  | None =>
                      '(tok, lit) <- ScanIgnoreWhitespace ;;
                      fail (newParseError (tokstr tok lit) ["regex"])
                  end
                else parseUnaryExpr fuel') ;;
        parseExprLoop fuel' (insertBinary root op rhs)
  end

with parseUnaryExpr (fuel : nat) : P Expr :=
  match fuel with
  | O => outOfFuel
  | S fuel' =>
      '(tok, _) <- ScanIgnoreWhitespace ;;
      match tok with
      | LPAREN =>
          expr <- ParseExpr fuel' ;;
          '(tok, lit) <- ScanIgnoreWhitespace ;;
          match tok with
          | RPAREN => ret (ParenExpr expr)
          | _ => fail (newParseError (tokstr tok lit) [")"])
          end
      | _ =>
          Unscan ;;;
          '(tok, lit) <- ScanIgnoreWhitespace ;;
          match tok with
          | IDENT =>
              '(tok0, _) <- Scan ;;
              match tok0 with
              | LPAREN => parseCall fuel' lit
              | _ => Unscan ;;; Unscan ;;; parseVarRef
              end
          | STRING => ret (StringLiteral lit)
          | NUMBER => ret (NumberLiteral lit)
          | INTEGER =>
              let v := digitsValue lit 0 in
              if (v <=? maxInt64)%Z then ret (IntegerLiteral v)
              else if (v <=? maxUint64)%Z then ret (UnsignedLiteral v)
              else fail (messageError "unable to parse integer")
          | TRUE => ret (BooleanLiteral true)
          | FALSE => ret (BooleanLiteral false)
          | MUL =>
              '(tok1, _) <- Scan ;;
              match tok1 with
              | DOUBLECOLON => fail (outsideFragment "typed wildcard")
              | _ => Unscan ;;; ret Wildcard
              end
          | DURATIONVAL => fail (outsideFragment "duration literal")
          | BOUNDPARAM => fail (outsideFragment "bound parameter")
          | ADD | SUB => fail (outsideFragment "signed operand")
          | KEYWORD _ =>
              if Token_eqb tok DISTINCT then
                '(tok0, lit0) <- Scan ;;
                match tok0 with
                | LPAREN => parseCall fuel' "distinct"
                | WS =>
                    '(tok1, lit1) <- ScanIgnoreWhitespace ;;
                    match tok1 with
                    | IDENT => ret (Distinct lit1)
                    | _ => fail (newParseError (tokstr tok1 lit1) ["identifier"])
                    end
                | _ => fail (newParseError (tokstr tok0 lit0) ["("; "identifier"])
                end
              else fail (newParseError (tokstr tok lit)
                           ["identifier"; "string"; "number"; "bool"])
          | _ => fail (newParseError (tokstr tok lit)
                         ["identifier"; "string"; "number"; "bool"])
          end
      end
  end

with parseCall (fuel : nat) (name : string) : P Expr :=
  match fuel with
  | O => outOfFuel
  | S fuel' =>
      let name := strings.ToLower name in
      re <- parseRegex ;;
      match re with
      | Some r => parseCallArgs fuel' name [RegexLiteral r]
      | None =>
          '(tok, _) <- Scan ;;
          match tok with
          | RPAREN => ret (Call name [])
          | _ =>
              Unscan ;;;
              arg <- ParseExpr fuel' ;;
              parseCallArgs fuel' name [arg]
          end
      end
  end

with parseCallArgs (fuel : nat) (name : string) (args : list Expr) : P Expr :=
  match fuel with
  | O => outOfFuel
  | S fuel' =>
      '(tok, _) <- ScanIgnoreWhitespace ;;
      match tok with
      | COMMA =>
          re <- parseRegex ;;
          match re with
          | Some r => parseCallArgs fuel' name (args ++ [RegexLiteral r])
          | None =>
              arg <- ParseExpr fuel' ;;
              parseCallArgs fuel' name (args ++ [arg])
          end
      | _ =>
          Unscan ;;;
          '(tok, lit) <- ScanIgnoreWhitespace ;;
          match tok with
          | RPAREN => ret (Call name args)
          | _ => fail (newParseError (tokstr tok lit) [")"])
          end
      end
  end.

(** [validateField]: the comparison and logical operators met while walking
    a field expression, in the order of the walk; the walk does not go
    below a node it has flagged. *)
Definition invalidInField (op : Token) : bool :=
  match op with
  | EQ | NEQ | EQREGEX | NEQREGEX | LT | LTE | GT | GTE | AND | OR => true
  | _ => false
  end.

Fixpoint validateField (e : Expr) : list Token :=
  match e with
  | BinaryExpr op l r =>
      if invalidInField op then [op] else validateField l ++ validateField r
  | ParenExpr e' => validateField e'
  | Call _ args =>
      (fix walk (a : list Expr) : list Token :=
         match a with
         | [] => []
         | x :: rest => validateField x ++ walk rest
         end) args
  | _ => []
  end.

Definition parseAlias : P string :=
  '(tok, _) <- ScanIgnoreWhitespace ;;
  if Token_eqb tok AS then ParseIdent else Unscan ;;; ret EmptyString.

Definition parseField (fuel : nat) : P Field :=
  re <- parseRegex ;;
  expr <- match re with
          | Some r => ret (RegexLiteral r)
          | None =>
              ScanIgnoreWhitespace ;;;
              Unscan ;;;
              expr <- ParseExpr fuel ;;
              match rev (validateField expr) with
              | badToken :: _ =>
                  fail (messageError
                          ("invalid operator " ++ Token_String badToken
                           ++ " in SELECT clause; operator is intended for WHERE clause"))
              | [] => ret expr
              end
          end ;;
  alias <- parseAlias ;;
  consumeWhitespace ;;;
  ret (mkField expr alias).

Fixpoint parseFieldsLoop (fuel : nat) (fields : list Field) : P (list Field) :=
  match fuel with
  | O => outOfFuel
  | S fuel' =>
      f <- parseField fuel' ;;
      '(tok, _) <- Scan ;;
      match tok with
      | COMMA => parseFieldsLoop fuel' (fields ++ [f])
      | _ => Unscan ;;; ret (fields ++ [f])
      end
  end.

Definition parseFields (fuel : nat) : P (list Field) := parseFieldsLoop fuel [].

Definition parseDimension (fuel : nat) : P Expr :=
  re <- parseRegex ;;
  match re with
  | Some r => ret (RegexLiteral r)
  | None => expr <- ParseExpr fuel ;; consumeWhitespace ;;; ret expr
  end.

Fixpoint parseDimensionsLoop (fuel : nat) (dims : list Expr) : P (list Expr) :=
  match fuel with
  | O => outOfFuel
  | S fuel' =>
      d <- parseDimension fuel' ;;
      '(tok, _) <- Scan ;;
      match tok with
      | COMMA => parseDimensionsLoop fuel' (dims ++ [d])
      | _ => Unscan ;;; ret (dims ++ [d])
      end
  end.

Definition parseDimensions (fuel : nat) : P (list Expr) :=
  '(tok, _) <- ScanIgnoreWhitespace ;;
  if Token_eqb tok GROUP then
    '(tok, lit) <- ScanIgnoreWhitespace ;;
    if Token_eqb tok BY then parseDimensionsLoop fuel []
    else fail (newParseError (tokstr tok lit) ["BY"])
  else Unscan ;;; ret [].

Definition parseCondition (fuel : nat) : P (option Expr) :=
  '(tok, _) <- ScanIgnoreWhitespace ;;
  if Token_eqb tok WHERE then expr <- ParseExpr fuel ;; ret (Some expr)
  else Unscan ;;; ret None.

(** [ParseOptionalTokenAndInt]; a count beyond int64 is read as the largest
    int64, the error of the conversion being dropped. *)
Definition ParseOptionalTokenAndInt (t : Token) : P Z :=
  '(tok, _) <- ScanIgnoreWhitespace ;;
  if Token_eqb tok t then
    '(tok, lit) <- ScanIgnoreWhitespace ;;
    match tok with
    | INTEGER => ret (Z.min (digitsValue lit 0) maxInt64)
    | _ => fail (newParseError (tokstr tok lit) ["integer"])
    end
  else Unscan ;;; ret 0%Z.

(** A clause introduced by the identifier [name] (fill, tz), which the
    model does not cover: the next token is looked at and put back. *)
Definition refuseIdentClause (name : string) : P unit :=
  '(tok, lit) <- ScanIgnoreWhitespace ;;
  Unscan ;;;
  match tok with
  | IDENT =>
      if String.eqb (strings.ToLower lit) name
      then fail (outsideFragment (name ++ " clause"))
      else ret tt
  | _ => ret tt
  end.

Definition refuseKeywordClause (kw : Token) (what : string) : P unit :=
  '(tok, lit) <- ScanIgnoreWhitespace ;;
  if Token_eqb tok kw then fail (outsideFragment what) else Unscan.

Inductive targetRequirement : Type :=
| targetRequired | targetNotRequired | targetSubquery.

Definition parseTarget (tr : targetRequirement) : P unit :=
  '(tok, lit) <- ScanIgnoreWhitespace ;;
  if Token_eqb tok INTO then fail (outsideFragment "INTO clause")
  else match tr with
       | targetRequired => fail (newParseError (tokstr tok lit) ["INTO"])
       | _ => Unscan
       end.

Definition measurementOfIdents (idents : list string) (re : option string)
  : Measurement :=
  match idents, re with
  | [a], Some _ => mkMeasurement EmptyString a EmptyString re
  | [a], None => mkMeasurement EmptyString EmptyString a re
  | [a; b], Some _ => mkMeasurement a b EmptyString re
  | [a; b], None => mkMeasurement EmptyString a b re
  | _, _ => mkMeasurement EmptyString EmptyString EmptyString re
  end.

Fixpoint parseSelectStatement (fuel : nat) (tr : targetRequirement)
  : P SelectStatement :=
  match fuel with
  | O => outOfFuel
  | S fuel' =>
      fields <- parseFields fuel' ;;
      parseTarget tr ;;;
      '(tok, lit) <- ScanIgnoreWhitespace ;;
      if negb (Token_eqb tok FROM)
      then fail (newParseError (tokstr tok lit) ["FROM"])
      else
        sources <- parseSourcesLoop fuel' [] ;;
        condition <- parseCondition fuel' ;;
        dimensions <- parseDimensions fuel' ;;
        refuseIdentClause "fill" ;;;
        refuseKeywordClause ORDER "ORDER BY clause" ;;;
        limit <- ParseOptionalTokenAndInt LIMIT ;;
        offset <- ParseOptionalTokenAndInt OFFSET ;;
        slimit <- ParseOptionalTokenAndInt SLIMIT ;;
        soffset <- ParseOptionalTokenAndInt SOFFSET ;;
        refuseIdentClause "tz" ;;;
        ret (mkSelectStatement fields sources condition dimensions
               limit offset slimit soffset)
  end

with parseSourcesLoop (fuel : nat) (sources : list Source) : P (list Source) :=
  match fuel with
  | O => outOfFuel
  | S fuel' =>
      s <- parseSource fuel' ;;
      '(tok, _) <- ScanIgnoreWhitespace ;;
      match tok with
      | COMMA => parseSourcesLoop fuel' (sources ++ [s])
      | _ => Unscan ;;; ret (sources ++ [s])
      end
  end

with parseSource (fuel : nat) : P Source :=
  match fuel with
  | O => outOfFuel
  | S fuel' =>
      re <- parseRegex ;;
      match re with
      | Some _ =>
          ret (Source_Measurement
                 (mkMeasurement EmptyString EmptyString EmptyString re))
      | None =>
          '(tok, _) <- ScanIgnoreWhitespace ;;
          match tok with
          | LPAREN =>
              parseToken SELECT ;;;
              stmt <- parseSelectStatement fuel' targetSubquery ;;
              parseToken RPAREN ;;;
              ret (SubQuery stmt)
          | _ =>
              Unscan ;;;
              idents <- parseSegmentedIdents ;;
              if (List.length idents =? 3)%nat then
                ret (Source_Measurement
                       (mkMeasurement (nth 0 idents EmptyString)
                          (nth 1 idents EmptyString)
                          (nth 2 idents EmptyString) None))
              else
                re <- parseRegex ;;
                ret (Source_Measurement (measurementOfIdents idents re))
          end
      end
  end.

Definition dropKeys : list string :=
  ["CONTINUOUS"; "DATABASE"; "MEASUREMENT"; "RETENTION"; "SERIES"; "SHARD";
   "SUBSCRIPTION"; "USER"].

Definition showKeys : list string :=
  ["CONTINUOUS"; "DATABASES"; "DIAGNOSTICS"; "FIELD"; "GRANTS";
   "MEASUREMENT"; "MEASUREMENTS"; "QUERIES"; "RETENTION"; "SERIES"; "SHARD";
   "SHARDS"; "STATS"; "SUBSCRIPTIONS"; "TAG"; "USERS"].

Definition languageKeys : list string :=
  ["SELECT"; "DELETE"; "SHOW"; "CREATE"; "DROP"; "EXPLAIN"; "GRANT";
   "REVOKE"; "ALTER"; "SET"; "KILL"].

(** A token of a statement the model does not cover, or a syntax error. *)
Definition otherKey (keys : list string) (tok : Token) (lit : string)
  : P Statement :=
  match tok with
  | KEYWORD name =>
      if existsb (String.eqb name) keys
      then fail (outsideFragment (name ++ " statement"))
      else fail (newParseError (tokstr tok lit) keys)
  | _ => fail (newParseError (tokstr tok lit) keys)
  end.

(** [Language.Parse]: the tree of statement keywords, walked to the handler
    of the statement. *)
Definition parseLanguage (fuel : nat) : P Statement :=
  '(tok, lit) <- ScanIgnoreWhitespace ;;
  if Token_eqb tok SELECT then
    stmt <- parseSelectStatement fuel targetNotRequired ;;
    ret (SelectStmt stmt)
  else if Token_eqb tok DROP then
    '(tok, lit) <- ScanIgnoreWhitespace ;;
    if Token_eqb tok DATABASE then
      name <- ParseIdent ;; ret (DropDatabaseStmt name)
    else if Token_eqb tok MEASUREMENT then
      name <- ParseIdent ;; ret (DropMeasurementStmt name)
    else otherKey dropKeys tok lit
  else if Token_eqb tok SHOW then
    '(tok, lit) <- ScanIgnoreWhitespace ;;
    if Token_eqb tok DATABASES then ret ShowDatabasesStmt
    else if Token_eqb tok USERS then ret ShowUsersStmt
    else otherKey showKeys tok lit
  else otherKey languageKeys tok lit.

(** [NewParser(strings.NewReader(q)).ParseStatement()]: one statement is
    parsed from the start of [q]; what follows it in [q] is not read. *)
Definition ParseStatement (q : string) : Statement + ParseError :=
  let src := readerNormalize q in
  match parseLanguage (8 * String.length src + 32) (mkPState src [] 0) with
  | Ok stmt _ => inl stmt
  | Fail e => inr e
  end.

(** The loop of [ParseQuery], the entry point of the library for a batch of
    statements separated by semicolons.  proxy.go does not call it; it says
    here what the statements of a batch are. *)
Fixpoint parseQueryLoop (fuel : nat) (semi : bool) (statements : list Statement)
  : P (list Statement) :=
  match fuel with
  | O => outOfFuel
  | S fuel' =>
      '(tok, lit) <- ScanIgnoreWhitespace ;;
      match tok with
      | EOF => ret statements
      | SEMICOLON => parseQueryLoop fuel' true statements
      | _ =>
          if negb semi then fail (newParseError (tokstr tok lit) [";"])
          else
            Unscan ;;;
            s <- parseLanguage (8 * fuel') ;;
            parseQueryLoop fuel' false (statements ++ [s])
      end
  end.

Definition ParseQuery (q : string) : list Statement + ParseError :=
  let src := readerNormalize q in
  match parseQueryLoop (String.length src + 4) true [] (mkPState src [] 0) with
  | Ok statements _ => inl statements
  | Fail e => inr e
  end.

(** *** Rendering (the String methods of ast.go)

    Every statement is rendered from its leading keyword on.  Two values
    are written as this model keeps them: a number literal as its text (the
    library formats the float with three decimals), a regular expression as
    its pattern. *)

Definition Z_String (z : Z) : string := NilZero.string_of_int (Z.to_int z).

Fixpoint replaceByte (c : ascii) (by_ : string) (s : string) : string :=
  match s with
  | EmptyString => EmptyString
  | String x rest =>
      (if Ascii.eqb x c then by_ else str1 x) ++ replaceByte c by_ rest
  end.

(** [QuoteString]: single quotes around the text, with line feed, backslash
    and single quote escaped. *)
Fixpoint qsReplace (s : string) : string :=
  match s with
  | EmptyString => EmptyString
  | String c rest =>
      (if Ascii.eqb c chLF then str1 chBackslash ++ "n"
       else if Ascii.eqb c chBackslash then str1 chBackslash ++ str1 chBackslash
       else if Ascii.eqb c chSQuote then str1 chBackslash ++ str1 chSQuote
       else str1 c) ++ qsReplace rest
  end.

Definition QuoteString (s : string) : string :=
  str1 chSQuote ++ qsReplace s ++ str1 chSQuote.

Definition RegexLiteral_String (pattern : string) : string :=
  "/" ++ replaceByte "/" (str1 chBackslash ++ "/") pattern ++ "/".

Fixpoint Expr_String (e : Expr) : string :=
  match e with
  | VarRef val => QuoteIdent [val]
  | Call name args =>
      name ++ "("
      ++ (fix join (a : list Expr) : string :=
            match a with
            | [] => EmptyString
            | x :: rest =>
                match rest with
                | [] => Expr_String x
                | _ => (Expr_String x ++ ", " ++ join rest)%string
                end
            end) args
      ++ ")"
  | BinaryExpr op l r =>
      Expr_String l ++ " " ++ Token_String op ++ " " ++ Expr_String r
  | ParenExpr e' => "(" ++ Expr_String e' ++ ")"
  | Wildcard => "*"
  | IntegerLiteral v => Z_String v
  | UnsignedLiteral v => Z_String v
  | NumberLiteral text => text
  | StringLiteral v => QuoteString v
  | BooleanLiteral v => if v then "true" else "false"
  | RegexLiteral v => RegexLiteral_String v
  | Distinct v => "DISTINCT " ++ v
  end.

Definition Field_String (f : Field) : string :=
  if String.eqb (Alias f) EmptyString then Expr_String (Field_Expr f)
  else Expr_String (Field_Expr f) ++ " AS " ++ QuoteIdent [Alias f].

Definition Fields_String (a : list Field) : string :=
  strings.Join (map Field_String a) ", ".

Definition Dimensions_String (a : list Expr) : string :=
  strings.Join (map Expr_String a) ", ".

Definition Measurement_String (m : Measurement) : string :=
  (if String.eqb (Database m) EmptyString then EmptyString
   else QuoteIdent [Database m] ++ ".")
  ++ (if String.eqb (RetentionPolicy m) EmptyString then EmptyString
      else QuoteIdent [RetentionPolicy m])
  ++ (if String.eqb (Database m) EmptyString
         && String.eqb (RetentionPolicy m) EmptyString
      then EmptyString else ".")
  ++ (if negb (String.eqb (Name m) EmptyString) then QuoteIdent [Name m]
      else match Regex m with
           | Some re => RegexLiteral_String re
           | None => EmptyString
           end).

Definition optClause (present : bool) (text : string) : string :=
  if present then text else EmptyString.

Fixpoint SelectStatement_String (s : SelectStatement) : string :=
  match s with
  | mkSelectStatement fields srcs condition dims limit offset slimit soffset =>
      "SELECT " ++ Fields_String fields
      ++ match srcs with
         | [] => EmptyString
         | _ =>
             " FROM "
             ++ (fix join (a : list Source) : string :=
                   match a with
                   | [] => EmptyString
                   | x :: rest =>
                       match rest with
                       | [] => Source_String x
                       | _ => (Source_String x ++ ", " ++ join rest)%string
                       end
                   end) srcs
         end
      ++ match condition with
         | Some c => " WHERE " ++ Expr_String c
         | None => EmptyString
         end
      ++ match dims with
         | [] => EmptyString
         | _ => " GROUP BY " ++ Dimensions_String dims
         end
      ++ optClause (0 <? limit)%Z (" LIMIT " ++ Z_String limit)
      ++ optClause (0 <? offset)%Z (" OFFSET " ++ Z_String offset)
      ++ optClause (0 <? slimit)%Z (" SLIMIT " ++ Z_String slimit)
      ++ optClause (0 <? soffset)%Z (" SOFFSET " ++ Z_String soffset)
  end

with Source_String (src : Source) : string :=
  match src with
  | Source_Measurement m => Measurement_String m
  | SubQuery stmt => "(" ++ SelectStatement_String stmt ++ ")"
  end.

(** [Statement.String] *)
Definition Statement_String (stmt : Statement) : string :=
  match stmt with
  | SelectStmt s => SelectStatement_String s
  | ExplainStmt analyze s =>
      "EXPLAIN " ++ optClause analyze "ANALYZE " ++ SelectStatement_String s
  | DropDatabaseStmt name => "DROP DATABASE " ++ QuoteIdent [name]
  | DropMeasurementStmt name => "DROP MEASUREMENT " ++ QuoteIdent [name]
  | ShowDatabasesStmt => "SHOW DATABASES"
  | ShowUsersStmt => "SHOW USERS"
  | OtherStmt kind tail => StatementKind_leading kind ++ tail
  end.

End influxql.

Local Open Scope string_scope.

(** ** Go's encoding/json, for a struct with one string field

    [json.Marshal] writes the string between double quotes.  With HTML
    escaping on, the bytes below 128 that are not written as they stand are
    the double quote, the backslash, the angle brackets, the ampersand and
    the control characters below 32.  Bytes from 128 on are copied: a
    message is taken to be valid UTF-8 without U+2028 and U+2029. *)

Module json.

Definition hex : string := "0123456789abcdef".

Definition hexDigit (n : nat) : string :=
  match String.get n hex with
  | Some c => String c EmptyString
  | None => EmptyString
  end.

Definition htmlSafe (b : ascii) : bool :=
  let n := nat_of_ascii b in
  (32 <=? n)%nat
  && negb (Ascii.eqb b influxql.chDQuote)
  && negb (Ascii.eqb b influxql.chBackslash)
  && negb (Ascii.eqb b "<") && negb (Ascii.eqb b ">")
  && negb (Ascii.eqb b "&").

Definition encodeByte (b : ascii) : string :=
  let bs := String influxql.chBackslash EmptyString in
  if htmlSafe b then String b EmptyString
  else if Ascii.eqb b influxql.chBackslash || Ascii.eqb b influxql.chDQuote
  then bs ++ String b EmptyString
  else if Ascii.eqb b influxql.chLF then bs ++ "n"
  else if Ascii.eqb b influxql.chCR then bs ++ "r"
  else if Ascii.eqb b influxql.chTab then bs ++ "t"
  else bs ++ "u00" ++ hexDigit (nat_of_ascii b / 16)
          ++ hexDigit (nat_of_ascii b mod 16).

Fixpoint encodeBytes (s : string) : string :=
  match s with
  | EmptyString => EmptyString
  | String b rest => encodeByte b ++ encodeBytes rest
  end.

Definition quote : string := String influxql.chDQuote EmptyString.

Definition encodeString (s : string) : string :=
  quote ++ encodeBytes s ++ quote.

(** [json.Marshal] of the response struct of [reportError], whose one field
    is tagged error.  Marshalling a string cannot fail. *)
Definition Marshal (Error : string) : string + string :=
  inl ("{" ++ quote ++ "error" ++ quote ++ ":" ++ encodeString Error ++ "}").

End json.

(** ** proxy.go *)

Import influxql.

(** The error values of the proxy: its four sentinels, and a parse error of
    the library wrapped by [fmt.Errorf]. *)
Inductive error : Type :=
| ErrQueryEmpty
| ErrQueryNotAllowed
| ErrQueryNotSupported
| ErrMethodNotAllowed
| ErrParsing (err : ParseError).

Definition error_Error (e : error) : string :=
  match e with
  | ErrQueryEmpty => "empty query not allowed"
  | ErrQueryNotAllowed => "query not allowed"
  | ErrQueryNotSupported => "query is not supported"
  | ErrMethodNotAllowed => "method not allowed"
  | ErrParsing err =>
      "error parsing InfluxQL statement " ++ ParseError_Error err
  end.

(** How a call of [allowed] ends: it returns an error or nil ([None]), or
    the type assertion on the parsed statement panics. *)
Inductive outcome : Type :=
| Return (err : option error)
| Panic.

(** [lookup]: is [name] one of the [allowed] entries?  Entries and name are
    compared with Go's [==] on strings, byte for byte. *)
Fixpoint lookup (allowed : list string) (name : string) : bool :=
  match allowed with
  | [] => false
  | item :: rest => if String.eqb item name then true else lookup rest name
  end.

(** The loop of [allowed] over the measurements of the statement: the first
    measurement whose name is not looked up ends it. *)
Fixpoint allowedMeasurements (ms : list Measurement) (allowed : list string)
  : option error :=
  match ms with
  | [] => None
  | m :: rest =>
      if negb (lookup allowed (Name m)) then Some ErrQueryNotAllowed
      else allowedMeasurements rest allowed
  end.

(** [http.Request], as far as the handler reads it: the method, the path of
    the URL and the value of the query parameter q (the first one if there
    are several, the empty string if there is none). *)
Record Request : Type := mkRequest {
  Method : string;
  URL_Path : string;
  URL_Query_q : string
}.

(** [Proxy]: the allowed data sources.  Its reverse proxy is the backend,
    seen here by the event of handing a request over to it. *)
Record Proxy : Type := mkProxy { sources : list string }.

(** What a run of the handler does, in order: calls on the response writer,
    the return of the admission check, the hand-over to the reverse proxy,
    and a panic that ends the handler. *)
Inductive event : Type :=
| HeaderSet (key value : string)
| WriteHeader (code : nat)
| Write (b : string)
| AdmissionReturned (err : option error)
| ProxyServeHTTP (r : Request)
| Panicked.

Definition StatusNotFound : nat := 404.
Definition StatusMethodNotAllowed : nat := 405.
Definition StatusNotAcceptable : nat := 406.
Definition StatusInternalServerError : nat := 500.
Definition StatusNotImplemented : nat := 501.

(** [reportError] *)
Definition reportError (err : error) (code : nat) : list event :=
  let '(b, code) :=
    match json.Marshal (error_Error err) with
    | inl b => (b, code)
    | inr _ =>
        ("{" ++ json.quote ++ "error" ++ json.quote ++ ": " ++ json.quote
         ++ "internal server error" ++ json.quote ++ "}",
         StatusInternalServerError)
    end in
  [ HeaderSet "Content-Type" "application/json; charset=UTF-8";
    WriteHeader code;
    Write b ].

(** [http.Error] of net/http *)
Definition http_Error (msg : string) (code : nat) : list event :=
  [ HeaderSet "Content-Type" "text/plain; charset=utf-8";
    HeaderSet "X-Content-Type-Options" "nosniff";
    WriteHeader code;
    Write (msg ++ String chLF EmptyString) ].

Section Admission.

(** [influxql.NewParser(strings.NewReader(q)).ParseStatement()], and the
    version and commit of the build. *)
Variable ParseStatement : string -> Statement + ParseError.
Variables version commit : string.

(** [allowed] *)
Definition allowed (q : string) (allowed : list string) : outcome :=
  if String.eqb q EmptyString then Return (Some ErrQueryEmpty)
  else
    match ParseStatement q with
    | inr err => Return (Some (ErrParsing err))
    | inl stmt =>
        if negb (strings.HasPrefix (strings.ToLower (Statement_String stmt))
                   "select")
        then Return (Some ErrQueryNotAllowed)
        else
          match stmt with
          | SelectStmt selectStmt =>
              Return (allowedMeasurements
                        (Measurements (Sources selectStmt)) allowed)
          | _ => Panic
          end
    end.

(** [Proxy.ServeHTTP] *)
Definition Proxy_ServeHTTP (p : Proxy) (r : Request) : list event :=
  if negb (String.eqb (Method r) "GET") && negb (String.eqb (Method r) "POST")
  then reportError ErrMethodNotAllowed StatusMethodNotAllowed
  else if String.eqb (URL_Path r) "/ping" then [ProxyServeHTTP r]
  else if String.eqb (URL_Path r) "/write"
  then reportError ErrQueryNotSupported StatusNotImplemented
  else if String.eqb (URL_Path r) "/query" then
    let q := URL_Query_q r in
    match allowed q (sources p) with
    | Panic => [Panicked]
    | Return (Some err) =>
        AdmissionReturned (Some err) :: reportError err StatusNotAcceptable
    | Return None => [AdmissionReturned None; ProxyServeHTTP r]
    end
  else if String.eqb (URL_Path r) "/debug/version" then
    [ HeaderSet "Content-Type" "text/plain";
      Write version; Write (String chLF EmptyString); Write commit ]
  else http_Error "not found" StatusNotFound.

End Admission.

(** ** proxy.go: the construction of the proxy and the start of the program *)

(** [url.URL] and [http.Request], as far as the director of the reverse
    proxy touches them.  A header is Go's map from canonical keys to value
    lists. *)
Module url.

Record URL : Type := mkURL {
  Scheme : string;
  Host : string;
  Path : string;
  RawQuery : string
}.

End url.

Module http.

Definition Header : Type := string -> option (list string).

(** [Header.Set] for a key that is in canonical form already. *)
Definition Header_Set (h : Header) (key value : string) : Header :=
  fun k => if String.eqb k key then Some [value] else h k.

Record Request : Type := mkRequest {
  Request_Method : string;
  Request_URL : url.URL;
  Request_Host : string;
  Request_Header : Header
}.

End http.

(** The director that [NewProxy] gives its reverse proxy: it points the
    request at the target, joins the query of the target with the query of
    the request, and sets an empty User-Agent when the request has none. *)
Definition director (target : url.URL) (r : http.Request) : http.Request :=
  let targetQuery := url.RawQuery target in
  let u := http.Request_URL r in
  let rawQuery :=
    if String.eqb targetQuery EmptyString
       || String.eqb (url.RawQuery u) EmptyString
    then targetQuery ++ url.RawQuery u
    else targetQuery ++ "&" ++ url.RawQuery u in
  let header :=
    match http.Request_Header r "User-Agent" with
    | Some _ => http.Request_Header r
    | None => http.Header_Set (http.Request_Header r) "User-Agent" EmptyString
    end in
  http.mkRequest (http.Request_Method r)
    (url.mkURL (url.Scheme target) (url.Host target) (url.Path u) rawQuery)
    (url.Host target)
    header.

(** The errors of [NewProxy]: its own, and the one of [url.Parse]. *)
Inductive NewProxyError : Type :=
| ErrNoAddr
| ErrURLParse (err : string).

Definition NewProxyError_Error (e : NewProxyError) : string :=
  match e with
  | ErrNoAddr => "no -addr provided to be proxied to"
  | ErrURLParse err => err
  end.

(** The command line of the program after [flag.Parse]. *)
Record Flags : Type := mkFlags {
  listenAddr : string;
  https : bool;
  domain : string;
  cacheDir : string;
  influxAddr : string;
  measurements : string
}.

(** How [main] ends: with [log.Fatal] before anything is served, or in one
    of the two calls that serve (and whose return is fatal too). *)
Inductive mainCall : Type :=
| LogFatal (msg : string)
| ServeAutoCert (addr : string) (p : Proxy)
    (dir : http.Request -> http.Request) (cache : string)
    (domains : list string)
| ListenAndServe (addr : string) (p : Proxy)
    (dir : http.Request -> http.Request).

Section Construction.

(** [url.Parse] of net/url: the URL, or the text of its error. *)
Variable url_Parse : string -> url.URL + string.

(** [NewProxy]: the proxy, with the director of its reverse proxy. *)
Definition NewProxy (addr : string) (sources : list string)
  : (Proxy * (http.Request -> http.Request)) + NewProxyError :=
  if String.eqb addr EmptyString then inr ErrNoAddr
  else
    match url_Parse addr with
    | inr err => inr (ErrURLParse err)
    | inl target => inl (mkProxy sources, director target)
    end.

(** [main], from the parsed flags on. *)
Definition main (f : Flags) : mainCall :=
  if String.eqb (measurements f) EmptyString
  then LogFatal "at least one measurement is required"
  else
    match NewProxy (influxAddr f) (strings.Split (measurements f) ",") with
    | inr err => LogFatal (NewProxyError_Error err)
    | inl (p, dir) =>
        if https f && negb (String.eqb (domain f) EmptyString)
        then ServeAutoCert (listenAddr f) p dir (cacheDir f) [domain f]
        else ListenAndServe (listenAddr f) p dir
    end.

End Construction.

(** * What the code guarantees *)

(** ** Vocabulary of the statements below *)

(** [Leaf m src]: the measurement [m] is the source [src] itself, or a
    source of the subquery [src], at any depth. *)
Inductive Leaf (m : Measurement) : Source -> Prop :=
| Leaf_measurement : Leaf m (Source_Measurement m)
| Leaf_subquery : forall stmt src,
    In src (Sources stmt) -> Leaf m src -> Leaf m (SubQuery stmt).

(** [LeafOf m stmt]: [m] is a leaf measurement of the SELECT statement. *)
Definition LeafOf (m : Measurement) (stmt : SelectStatement) : Prop :=
  exists src, In src (Sources stmt) /\ Leaf m src.




(** The reply [reportError] is to give: a JSON object with the one member
    error, sent with the given status. *)
Definition jsonErrorReply (message : string) (code : nat) : list event :=
  [ HeaderSet "Content-Type" "application/json; charset=UTF-8";
    WriteHeader code;
    Write ("{" ++ json.quote ++ "error" ++ json.quote ++ ":"
           ++ json.encodeString message ++ "}") ].

(** The calls on the response writer among the events of a run. *)
Definition isWriterCall (e : event) : bool :=
  match e with
  | HeaderSet _ _ | WriteHeader _ | Write _ => true
  | _ => false
  end.

Definition forwards (tr : list event) : Prop :=
  exists r, In (ProxyServeHTTP r) tr.

(** The lookup the claims describe: an entry matches a name when the two
    are equal up to the case of their letters. *)
Definition lookupFold (allowed : list string) (name : string) : bool :=
  existsb (fun item =>
             String.eqb (strings.ToLower item) (strings.ToLower name))
    allowed.

(** The methods the handler lets through. *)
Definition methodAccepted (r : Request) : bool :=
  String.eqb (Method r) "GET" || String.eqb (Method r) "POST".


(** [cutAt c s]: the pieces of [s] between the occurrences of the byte
    [c], by plain recursion on [s]. *)
Fixpoint cutAt (c : ascii) (s : string) : list string :=
  match s with
  | EmptyString => [EmptyString]
  | String d rest =>
      if Ascii.eqb d c then EmptyString :: cutAt c rest
      else match cutAt c rest with
           | x :: xs => String d x :: xs
           | [] => [String d EmptyString]
           end
  end.

(** [hasByte c s]: the byte [c] occurs in [s]. *)
Fixpoint hasByte (c : ascii) (s : string) : bool :=
  match s with
  | EmptyString => false
  | String d rest => Ascii.eqb d c || hasByte c rest
  end.

(** The parameters of a raw query: none for the empty query, otherwise its
    pieces between ampersands. *)
Definition queryParams (rawQuery : string) : list string :=
  if String.eqb rawQuery EmptyString then []
  else strings.Split rawQuery "&".

(** The proxy that [main] goes on to serve, if it gets that far. *)
Definition served (c : mainCall) : option Proxy :=
  match c with
  | LogFatal _ => None
  | ServeAutoCert _ p _ _ _ => Some p
  | ListenAndServe _ p _ => Some p
  end.






(** The runs of the handler, by method and path. *)
Inductive Run (parse : string -> Statement + ParseError)
    (version commit : string) (p : Proxy) (r : Request)
  : list event -> Prop :=
| Run_method :
    methodAccepted r = false ->
    Run parse version commit p r
      (jsonErrorReply (error_Error ErrMethodNotAllowed) StatusMethodNotAllowed)
| Run_ping :
    methodAccepted r = true -> URL_Path r = "/ping" ->
    Run parse version commit p r [ProxyServeHTTP r]
| Run_write :
    methodAccepted r = true -> URL_Path r = "/write" ->
    Run parse version commit p r
      (jsonErrorReply (error_Error ErrQueryNotSupported) StatusNotImplemented)
| Run_admitted :
    methodAccepted r = true -> URL_Path r = "/query" ->
    allowed parse (URL_Query_q r) (sources p) = Return None ->
    Run parse version commit p r [AdmissionReturned None; ProxyServeHTTP r]
| Run_denied : forall err,
    methodAccepted r = true -> URL_Path r = "/query" ->
    allowed parse (URL_Query_q r) (sources p) = Return (Some err) ->
    Run parse version commit p r
      (AdmissionReturned (Some err)
       :: jsonErrorReply (error_Error err) StatusNotAcceptable)
| Run_version :
    methodAccepted r = true -> URL_Path r = "/debug/version" ->
    Run parse version commit p r
      [ HeaderSet "Content-Type" "text/plain";
        Write version; Write (String chLF EmptyString); Write commit ]
| Run_not_found :
    methodAccepted r = true ->
    URL_Path r <> "/ping" -> URL_Path r <> "/write" ->
    URL_Path r <> "/query" -> URL_Path r <> "/debug/version" ->
    Run parse version commit p r (http_Error "not found" StatusNotFound).

Definition isForward (e : event) : bool :=
  match e with ProxyServeHTTP _ => true | _ => false end.

Definition isAdmission (e : event) : bool :=
  match e with AdmissionReturned _ => true | _ => false end.

(** ** Induction over sources, subqueries included *)

Section SourceInduction.

Variable Q : Source -> Prop.
Hypothesis Q_measurement : forall m, Q (Source_Measurement m).
Hypothesis Q_subquery : forall stmt,
  Forall Q (Sources stmt) -> Q (SubQuery stmt).

Fixpoint Source_nested_ind (src : Source) : Q src :=
  match src as x return Q x with
  | Source_Measurement m => Q_measurement m
  | SubQuery stmt =>
      Q_subquery stmt
        (match stmt as y return Forall Q (Sources y) with
         | mkSelectStatement _ srcs _ _ _ _ _ _ =>
             (fix all (a : list Source) : Forall Q a :=
                match a as z return Forall Q z with
                | [] => Forall_nil Q
                | x :: rest => Forall_cons x (Source_nested_ind x) (all rest)
                end) srcs
         end)
  end.

End SourceInduction.

(** ** The library: measurements and renderings *)

Lemma Source_Measurements_subquery stmt :
  Source_Measurements (SubQuery stmt) = Measurements (Sources stmt).
Proof. destruct stmt; reflexivity. Qed.

Lemma In_Measurements m a :
  In m (Measurements a) <->
  exists src, In src a /\ In m (Source_Measurements src).
Proof.
  induction a as [|x rest IH]; simpl.
  - split; [tauto | intros [src [[] _]]].
  - rewrite in_app_iff, IH. split.
    + intros [H | [src [Hin Hm]]]; [exists x | exists src]; auto.
    + intros [src [[<- | Hin] Hm]]; [left | right; exists src]; auto.
Qed.

(** [Measurements] gathers the leaves, and nothing else. *)
Lemma Source_Measurements_Leaf m src :
  In m (Source_Measurements src) <-> Leaf m src.
Proof.
  induction src as [m' | stmt IH] using Source_nested_ind.
  - simpl. split.
    + intros [<- | []]. constructor.
    + inversion 1; subst. now left.
  - rewrite Source_Measurements_subquery, In_Measurements.
    rewrite Forall_forall in IH. split.
    + intros [src [Hin Hm]]. apply Leaf_subquery with src; auto.
      now apply IH.
    + inversion 1; subst. eexists; split; eauto. now apply IH.
Qed.

Lemma Measurements_LeafOf m stmt :
  In m (Measurements (Sources stmt)) <-> LeafOf m stmt.
Proof.
  unfold LeafOf. rewrite In_Measurements.
  split; intros [src [Hin H]]; exists src; split; auto;
    now apply Source_Measurements_Leaf.
Qed.

Lemma SelectStatement_String_select s :
  strings.HasPrefix (strings.ToLower (SelectStatement_String s)) "select" = true.
Proof. destruct s; reflexivity. Qed.

(** No statement other than a SELECT renders with a leading select. *)
Lemma Statement_String_select_inv stmt :
  strings.HasPrefix (strings.ToLower (Statement_String stmt)) "select" = true ->
  exists s, stmt = SelectStmt s.
Proof.
  destruct stmt as [s | an s | name | name | | | kind tail];
    try (intros _; eexists; reflexivity);
    try (destruct an); try (destruct kind); simpl; discriminate.
Qed.

(** ** [lookup] and the loop over the measurements *)

Lemma lookup_In allowed name : lookup allowed name = true <-> In name allowed.
Proof.
  induction allowed as [|item rest IH]; simpl.
  - split; [discriminate | tauto].
  - destruct (String.eqb_spec item name) as [-> | Hne].
    + split; auto.
    + rewrite IH. split; auto. intros [H | H]; [contradiction | exact H].
Qed.

Lemma lookup_false_iff allowed name :
  lookup allowed name = false <-> ~ In name allowed.
Proof.
  rewrite <- lookup_In. destruct (lookup allowed name); split;
    congruence || auto.
Qed.

Lemma allowedMeasurements_nil_iff ms allowed :
  allowedMeasurements ms allowed = None <->
  forall m, In m ms -> In (Name m) allowed.
Proof.
  induction ms as [|m rest IH]; simpl.
  - split; [intros _ ? [] | reflexivity].
  - destruct (lookup allowed (Name m)) eqn:E; simpl.
    + apply lookup_In in E. rewrite IH. split.
      * intros H x [<- | Hx]; auto.
      * intros H x Hx. apply H. now right.
    + apply lookup_false_iff in E. split; [discriminate |].
      intros H. destruct E. apply H. now left.
Qed.

Lemma allowedMeasurements_cases ms allowed :
  allowedMeasurements ms allowed = None \/
  allowedMeasurements ms allowed = Some ErrQueryNotAllowed.
Proof.
  induction ms as [|m rest IH]; simpl; auto.
  destruct (lookup allowed (Name m)); simpl; auto.
Qed.

Lemma allowedMeasurements_denied_iff ms allowed :
  allowedMeasurements ms allowed = Some ErrQueryNotAllowed <->
  exists m, In m ms /\ ~ In (Name m) allowed.
Proof.
  split.
  - intros H. induction ms as [|m rest IH]; simpl in H; [discriminate |].
    destruct (lookup allowed (Name m)) eqn:E; simpl in H.
    + destruct (IH H) as [x [Hx Hn]]. exists x. split; [now right | exact Hn].
    + exists m. split; [now left | now apply lookup_false_iff].
  - intros [m [Hin Hn]].
    destruct (allowedMeasurements_cases ms allowed) as [H | H]; [| exact H].
    rewrite allowedMeasurements_nil_iff in H. destruct Hn. now apply H.
Qed.

(** ** [allowed] on a query that parses to a SELECT *)

Section AllowedFacts.

Variable ParseStatement : string -> Statement + ParseError.

Lemma allowed_select q allowlist s :
  q <> EmptyString ->
  ParseStatement q = inl (SelectStmt s) ->
  allowed ParseStatement q allowlist =
  Return (allowedMeasurements (Measurements (Sources s)) allowlist).
Proof.
  intros Hq Hp. unfold allowed.
  destruct (String.eqb_spec q EmptyString) as [-> | _]; [contradiction |].
  rewrite Hp. simpl Statement_String.
  now rewrite SelectStatement_String_select.
Qed.

Lemma allowed_select_admitted_iff q allowlist s :
  q <> EmptyString ->
  ParseStatement q = inl (SelectStmt s) ->
  allowed ParseStatement q allowlist = Return None <->
  forall m, LeafOf m s -> In (Name m) allowlist.
Proof.
  intros Hq Hp. rewrite (allowed_select q allowlist s Hq Hp). split.
  - intros [= H] m Hm.
    apply (proj1 (allowedMeasurements_nil_iff _ _) H).
    now apply Measurements_LeafOf.
  - intros H. f_equal. apply allowedMeasurements_nil_iff.
    intros m Hm. apply H. now apply Measurements_LeafOf.
Qed.

Lemma allowed_select_denied_iff q allowlist s :
  q <> EmptyString ->
  ParseStatement q = inl (SelectStmt s) ->
  allowed ParseStatement q allowlist = Return (Some ErrQueryNotAllowed) <->
  exists m, LeafOf m s /\ ~ In (Name m) allowlist.
Proof.
  intros Hq Hp. rewrite (allowed_select q allowlist s Hq Hp). split.
  - intros [= H]. apply allowedMeasurements_denied_iff in H.
    destruct H as [m [Hm Hn]]. exists m.
    split; [now apply Measurements_LeafOf | exact Hn].
  - intros [m [Hm Hn]]. f_equal. apply allowedMeasurements_denied_iff.
    exists m. split; [now apply Measurements_LeafOf | exact Hn].
Qed.

Lemma allowed_never_panics q allowlist :
  allowed ParseStatement q allowlist <> Panic.
Proof.
  unfold allowed.
  destruct (String.eqb q EmptyString); [discriminate |].
  destruct (ParseStatement q) as [stmt | err]; [| discriminate].
  destruct (strings.HasPrefix _ _) eqn:E; simpl; [| discriminate].
  destruct (Statement_String_select_inv stmt E) as [s ->]. discriminate.
Qed.

End AllowedFacts.

(** ** Qualifiers do not reach the loop over the measurements *)




(** ** The claims *)

(** C1 (the code departs from the claim).  The claim: a batch of
    statements separated by semicolons is admitted only if every statement
    of it is a SELECT over allowed sources.  The code parses one statement,
    the first, and decides on it alone.  With the allow-list m1, a batch
    whose second statement reads the measurement m3 is admitted, and so is
    a batch whose second statement drops a database. *)
Theorem allowed_batch_checks_first_statement_only :
  (exists s1 s2,
      ParseQuery "select a FROM m1;SELECT b FROM m3"
      = inl [SelectStmt s1; SelectStmt s2]
      /\ map Name (Measurements (Sources s2)) = ["m3"]
      /\ lookup ["m1"] "m3" = false
      /\ allowed ParseStatement "select a FROM m1;SELECT b FROM m3" ["m1"]
         = Return None)
  /\ ParseQuery "select a FROM m1;DROP DATABASE x"
     = inl [SelectStmt
              (mkSelectStatement [mkField (VarRef "a") EmptyString]
                 [Source_Measurement
                    (mkMeasurement EmptyString EmptyString "m1" None)]
                 None [] 0%Z 0%Z 0%Z 0%Z);
            DropDatabaseStmt "x"]
  /\ allowed ParseStatement "select a FROM m1;DROP DATABASE x" ["m1"]
     = Return None.
Proof.
  split; [| split; vm_compute; reflexivity].
  do 2 eexists.
  split; [vm_compute; reflexivity |].
  split; [vm_compute; reflexivity |].
  split; vm_compute; reflexivity.
Qed.

(** C2 (the code departs from the claim).  The claim: source names and
    allow-list entries are compared without regard to case, so that the
    source m0 matches the entry M0.  The code compares byte for byte: the
    query of the test mixedCasesAllowed, which the test expects to be
    admitted, is denied, although the allow-list has the name up to case. *)
Theorem allowed_compares_case_sensitively :
  lookupFold ["M0"; "m1"; "M2"] "m0" = true
  /\ lookup ["M0"; "m1"; "M2"] "m0" = false
  /\ allowed ParseStatement "select a FROM m0" ["M0"; "m1"; "M2"]
     = Return (Some ErrQueryNotAllowed).
Proof. split; [| split]; vm_compute; reflexivity. Qed.

(** C3 (the code departs from the claim).  The claim: a SELECT whose source
    is a regular expression is denied under every allow-list.  The code
    looks up the name of the measurement, which is empty for such a source:
    an allow-list with an empty entry admits the query. *)
Theorem allowed_regex_source_admitted_by_empty_entry :
  exists s m,
    ParseStatement "select a FROM /.*/" = inl (SelectStmt s)
    /\ Measurements (Sources s) = [m]
    /\ Regex m = Some ".*"
    /\ Name m = EmptyString
    /\ allowed ParseStatement "select a FROM /.*/" ["m1"; EmptyString]
       = Return None.
Proof.
  do 2 eexists.
  split; [vm_compute; reflexivity |].
  split; [vm_compute; reflexivity |].
  split; [vm_compute; reflexivity |].
  split; vm_compute; reflexivity.
Qed.

(** C4.  For a query that parses to a SELECT, subqueries nested to any
    depth: if the name of every leaf measurement is in the allow-list the
    query is admitted, and if the name of some leaf measurement is not, the
    result is the error query not allowed. *)
Theorem allowed_nested_subqueries :
  forall (parse : string -> Statement + ParseError) q allowlist s,
    q <> EmptyString ->
    parse q = inl (SelectStmt s) ->
    ((forall m, LeafOf m s -> In (Name m) allowlist) ->
     allowed parse q allowlist = Return None)
    /\ ((exists m, LeafOf m s /\ ~ In (Name m) allowlist) ->
        allowed parse q allowlist = Return (Some ErrQueryNotAllowed)).
Proof.
  intros parse q allowlist s Hq Hp. split.
  - apply (allowed_select_admitted_iff parse q allowlist s Hq Hp).
  - apply (allowed_select_denied_iff parse q allowlist s Hq Hp).
Qed.

Lemma allowed_nested_subqueries_witness :
  allowed ParseStatement
    "select a, c, b, d, e FROM (SELECT * FROM (SELECT * FROM m1)) WHERE a=1"
    ["m0"; "m1"]
  = Return None.
Proof.
  eapply (fun s Hp =>
            proj1 (allowed_nested_subqueries ParseStatement
                     "select a, c, b, d, e FROM (SELECT * FROM (SELECT * FROM m1)) WHERE a=1"
                     ["m0"; "m1"] s ltac:(discriminate) Hp)).
  - vm_compute. reflexivity.
  - intros m H. apply Measurements_LeafOf in H. simpl in H.
    destruct H as [<- | []]. simpl. auto.
Defined.



Lemma reportError_jsonErrorReply err code :
  reportError err code = jsonErrorReply (error_Error err) code.
Proof. reflexivity. Qed.


(** The three ways a request on /query runs. *)
Lemma ServeHTTP_query_runs
  (parse : string -> Statement + ParseError) version commit p r :
  URL_Path r = "/query" ->
  let tr := Proxy_ServeHTTP parse version commit p r in
  (methodAccepted r = false
   /\ tr = jsonErrorReply (error_Error ErrMethodNotAllowed)
             StatusMethodNotAllowed)
  \/ (methodAccepted r = true
      /\ allowed parse (URL_Query_q r) (sources p) = Return None
      /\ tr = [AdmissionReturned None; ProxyServeHTTP r])
  \/ (methodAccepted r = true
      /\ exists err,
           allowed parse (URL_Query_q r) (sources p) = Return (Some err)
           /\ tr = AdmissionReturned (Some err)
                   :: jsonErrorReply (error_Error err) StatusNotAcceptable).
Proof.
  intros Hpath. unfold Proxy_ServeHTTP, methodAccepted. rewrite Hpath.
  change (String.eqb "/query" "/ping") with false.
  change (String.eqb "/query" "/write") with false.
  change (String.eqb "/query" "/query") with true.
  cbv iota zeta.
  destruct (String.eqb (Method r) "GET"), (String.eqb (Method r) "POST");
    cbn [negb andb orb].
  4: { left. split; reflexivity. }
  all: pose proof (allowed_never_panics parse (URL_Query_q r) (sources p))
         as Hnp;
       destruct (allowed parse (URL_Query_q r) (sources p))
         as [[err |] |]; [ | | contradiction ].
  all: try (right; left; repeat split; reflexivity).
  all: right; right; split; [reflexivity |]; exists err; split; reflexivity.
Qed.

Lemma jsonErrorReply_no_forward msg code r :
  ~ In (ProxyServeHTTP r) (jsonErrorReply msg code).
Proof. unfold jsonErrorReply. cbn [In]. intuition discriminate. Qed.





(** C7.  The empty query gets the error empty query not allowed under every
    allow-list, the empty one included, and whatever the parser would
    answer: the parser is not consulted. *)
Theorem allowed_empty_query :
  forall (parse : string -> Statement + ParseError) allowlist,
    allowed parse EmptyString allowlist = Return (Some ErrQueryEmpty).
Proof. reflexivity. Qed.

(** C8.  A query that parses to a statement whose rendering, in lower case,
    does not begin with select gets the error query not allowed; and the
    statements so rendered are exactly those that are not SELECT
    statements. *)
Theorem allowed_non_select_not_allowed :
  forall (parse : string -> Statement + ParseError) q allowlist stmt,
    q <> EmptyString ->
    parse q = inl stmt ->
    (strings.HasPrefix (strings.ToLower (Statement_String stmt)) "select"
     = false
     <-> forall s, stmt <> SelectStmt s)
    /\ (strings.HasPrefix (strings.ToLower (Statement_String stmt)) "select"
        = false ->
        allowed parse q allowlist = Return (Some ErrQueryNotAllowed)).
Proof.
  intros parse q allowlist stmt Hq Hp. split.
  - split.
    + intros H s ->. simpl in H.
      now rewrite SelectStatement_String_select in H.
    + intros H.
      destruct (strings.HasPrefix _ _) eqn:E; [| reflexivity].
      destruct (Statement_String_select_inv stmt E) as [s ->].
      now destruct (H s).
  - intros H. unfold allowed.
    destruct (String.eqb_spec q EmptyString) as [-> | _]; [contradiction |].
    now rewrite Hp, H.
Qed.

Lemma allowed_non_select_not_allowed_witness :
  allowed ParseStatement "drop database test" ["test"]
  = Return (Some ErrQueryNotAllowed).
Proof.
  eapply (fun stmt Hp =>
            proj2 (allowed_non_select_not_allowed ParseStatement
                     "drop database test" ["test"] stmt
                     ltac:(discriminate) Hp)).
  - vm_compute. reflexivity.
  - vm_compute. reflexivity.
Defined.

(** C9.  Admission is monotone in the allow-list: a query admitted under an
    allow-list is admitted under every allow-list that contains its
    entries. *)
Theorem allowed_monotone :
  forall (parse : string -> Statement + ParseError) q allowlist allowlist',
    (forall x, In x allowlist -> In x allowlist') ->
    allowed parse q allowlist = Return None ->
    allowed parse q allowlist' = Return None.
Proof.
  intros parse q allowlist allowlist' Hsub. unfold allowed.
  destruct (String.eqb q EmptyString); [discriminate |].
  destruct (parse q) as [stmt | err]; [| discriminate].
  destruct (negb _); [discriminate |].
  destruct stmt; try discriminate.
  intros H. injection H as H. f_equal.
  rewrite allowedMeasurements_nil_iff in H |- *. auto.
Qed.

Lemma allowed_monotone_witness :
  allowed ParseStatement "select a FROM m0" ["m1"; "m0"; "m2"] = Return None.
Proof.
  apply (allowed_monotone ParseStatement "select a FROM m0"
           ["m0"] ["m1"; "m0"; "m2"]).
  - intros x [<- | []]. simpl. auto.
  - vm_compute. reflexivity.
Defined.

(** C10.  When the rendering of the parsed statement, in lower case, begins
    with select, the statement is a SELECT statement: the type assertion of
    [allowed] succeeds and the call does not panic. *)
Theorem allowed_type_assertion_succeeds :
  forall (parse : string -> Statement + ParseError) q allowlist stmt,
    parse q = inl stmt ->
    strings.HasPrefix (strings.ToLower (Statement_String stmt)) "select"
    = true ->
    (exists selectStmt, stmt = SelectStmt selectStmt)
    /\ exists err, allowed parse q allowlist = Return err.
Proof.
  intros parse q allowlist stmt Hp Hsel.
  split; [now apply Statement_String_select_inv |].
  pose proof (allowed_never_panics parse q allowlist) as Hnp.
  destruct (allowed parse q allowlist) as [err |];
    [now exists err | contradiction].
Qed.

Lemma allowed_type_assertion_succeeds_witness :
  exists err,
    allowed ParseStatement "select a FROM m0" ["m0"] = Return err.
Proof.
  eapply (fun stmt Hp Hsel =>
            proj2 (allowed_type_assertion_succeeds ParseStatement
                     "select a FROM m0" ["m0"] stmt Hp Hsel)).
  - vm_compute. reflexivity.
  - vm_compute. reflexivity.
Defined.

(** ** Around the claims the code departs from *)

(** A source given as a regular expression is denied as soon as the
    allow-list has no empty entry: this is all that stands between such a
    query and the backend. *)
Lemma allowed_regex_source_denied_without_empty_entry :
  forall (parse : string -> Statement + ParseError) q allowlist s m,
    q <> EmptyString ->
    parse q = inl (SelectStmt s) ->
    LeafOf m s -> Name m = EmptyString ->
    ~ In EmptyString allowlist ->
    allowed parse q allowlist = Return (Some ErrQueryNotAllowed).
Proof.
  intros parse q allowlist s m Hq Hp Hleaf Hname Hno.
  apply (allowed_select_denied_iff parse q allowlist s Hq Hp).
  exists m. split; [exact Hleaf | now rewrite Hname].
Qed.

(** The parser gives a regular expression source the empty name. *)
Lemma ParseStatement_regex_source :
  ParseStatement "select a FROM /.*/" =
  inl (SelectStmt
         (mkSelectStatement [mkField (VarRef "a") EmptyString]
            [Source_Measurement
               (mkMeasurement EmptyString EmptyString EmptyString (Some ".*"))]
            None [] 0%Z 0%Z 0%Z 0%Z)).
Proof. vm_compute. reflexivity. Qed.

(** Of a batch the parser returns the first statement. *)
Lemma ParseStatement_batch :
  ParseStatement "select a FROM m1;SELECT b FROM m3" =
  ParseStatement "select a FROM m1".
Proof. vm_compute. reflexivity. Qed.

(** ** The tests of the repository

    The cases of TestAllowed that the two versions of the test file share,
    in the order of the file: what [allowed] returns on each. *)
Lemma TestAllowed_shared_cases :
  map (fun tc => allowed ParseStatement (fst tc) (snd tc))
    [ (EmptyString, []);
      (EmptyString, ["a"; "b"]);
      ("SELECT a, c, b, d, e, mean(a) as m from m1", ["m2"; "m3"]);
      ("select a, c, b, d, e FROM /.*/", ["m1"]);
      ("select a, c, b, d, e FROM (SELECT * FROM (SELECT * FROM m1)) WHERE a=1",
       ["m0"; "m1"]);
      ("select a, c, b FROM (SELECT * FROM m1) GROUP BY time()",
       ["m0"; "m4"; "m5"]);
      ("select a FROM m0", ["m0"; "m1"; "m2"]);
      ("select a, c, b, d, e FROM m1, m4", ["m1"; "m2"; "m4"; "m5"]);
      ("select a, c, b, d, e FROM m1, m4, m0", ["m1"; "m2"; "m4"; "m5"]);
      ("select a FROM db.rt.m1", ["m0"; "m1"; "m2"]);
      ("select a, b FROM db.rt.m4", ["m0"; "m1"; "m2"]);
      ("select a, b FROM db..m2", ["m0"; "m1"; "m2"]);
      ("select a, b FROM db..m4", ["m0"; "m1"; "m2"]) ]
  = map Return
      [ Some ErrQueryEmpty; Some ErrQueryEmpty; Some ErrQueryNotAllowed;
        Some ErrQueryNotAllowed; None; Some ErrQueryNotAllowed; None; None;
        Some ErrQueryNotAllowed; None; Some ErrQueryNotAllowed; None;
        Some ErrQueryNotAllowed ].
Proof. vm_compute. reflexivity. Qed.

(** The cases that only the later version of the test file has, with what
    [allowed] returns on each.  The test expects nil for the first, the
    second and the last of them. *)
Lemma TestAllowed_later_cases :
  map (fun tc => allowed ParseStatement (fst tc) (snd tc))
    [ ("select a FROM m0", ["M0"; "m1"; "M2"]);
      ("select a FROM M1", ["M0"; "m1"; "M2"]);
      ("select a FROM M1;SELECT b FROM M3", ["M0"; "m1"; "M2"]);
      ("select b FROM M4;SELECT a FROM M1", ["M0"; "m1"; "M2"]);
      ("select a FROM M4;SELECT b FROM M3;select x from M5;",
       ["M0"; "m1"; "M2"]);
      ("select m1 FROM M1;SELECT m0 FROM M0;select m2 from M2;",
       ["M0"; "m1"; "M2"]) ]
  = map Return
      [ Some ErrQueryNotAllowed; Some ErrQueryNotAllowed;
        Some ErrQueryNotAllowed; Some ErrQueryNotAllowed;
        Some ErrQueryNotAllowed; Some ErrQueryNotAllowed ].
Proof. vm_compute. reflexivity. Qed.

(** TestQueryEndpoint: a proxy for the one source test replies 406 to a
    missing, a partial and a DROP query, and forwards a SELECT on test. *)
Lemma TestQueryEndpoint_cases :
  map (fun q => filter (fun e => negb (isWriterCall e))
                  (Proxy_ServeHTTP ParseStatement "v" "c" (mkProxy ["test"])
                     (mkRequest "GET" "/query" q)))
    [ EmptyString; "select"; "drop database test"; "select * FROM test" ]
  = [ [AdmissionReturned (Some ErrQueryEmpty)];
      [AdmissionReturned
         (Some (ErrParsing
                  (newParseError "EOF"
                     ["identifier"; "string"; "number"; "bool"])))];
      [AdmissionReturned (Some ErrQueryNotAllowed)];
      [AdmissionReturned None;
       ProxyServeHTTP (mkRequest "GET" "/query" "select * FROM test")] ].
Proof. vm_compute. reflexivity. Qed.

(** * Beyond the claims: the rest of proxy.go *)

(** ** [strings.Split] at a one-byte separator *)

Lemma cutAt_not_nil c s : cutAt c s <> [].
Proof.
  destruct s as [|d rest]; simpl; [discriminate |].
  destruct (Ascii.eqb d c); [discriminate |].
  destruct (cutAt c rest); discriminate.
Qed.

Lemma string_app_empty_r (s : string) : s ++ EmptyString = s.
Proof. induction s; simpl; congruence. Qed.

Lemma string_app_assoc (a b c : string) : (a ++ b) ++ c = a ++ (b ++ c).
Proof. induction a; simpl; congruence. Qed.

Lemma genSplit_cutAt c s cur :
  strings.genSplit (String c EmptyString) s 0 cur =
  match cutAt c s with
  | x :: xs => (cur ++ x) :: xs
  | [] => [cur]
  end.
Proof.
  revert cur. induction s as [|d rest IH]; intros cur; simpl.
  - now rewrite string_app_empty_r.
  - replace (strings.HasPrefix rest EmptyString) with true
      by (now destruct rest).
    rewrite andb_true_r. destruct (Ascii.eqb d c).
    + rewrite string_app_empty_r, IH.
      destruct (cutAt c rest) eqn:E; [now apply cutAt_not_nil in E |].
      reflexivity.
    + rewrite IH.
      destruct (cutAt c rest) eqn:E; [now apply cutAt_not_nil in E |].
      now rewrite string_app_assoc.
Qed.

Lemma Split_cutAt c s : strings.Split s (String c EmptyString) = cutAt c s.
Proof.
  unfold strings.Split. rewrite genSplit_cutAt.
  destruct (cutAt c s) eqn:E; [now apply cutAt_not_nil in E | reflexivity].
Qed.

Lemma Join_cons e rest sep :
  rest <> [] ->
  strings.Join (e :: rest) sep = e ++ sep ++ strings.Join rest sep.
Proof. destruct rest; [contradiction | reflexivity]. Qed.

Lemma Join_cutAt c s : strings.Join (cutAt c s) (String c EmptyString) = s.
Proof.
  induction s as [|d rest IH]; [reflexivity |].
  cbn [cutAt]. destruct (Ascii.eqb_spec d c) as [-> | Hne].
  - rewrite Join_cons by apply cutAt_not_nil. simpl. now rewrite IH.
  - destruct (cutAt c rest) as [|x xs] eqn:E; [now apply cutAt_not_nil in E |].
    replace (strings.Join (String d x :: xs) (String c EmptyString))
      with (String d (strings.Join (x :: xs) (String c EmptyString)))
      by (now destruct xs).
    now rewrite IH.
Qed.

Lemma cutAt_pieces c s : Forall (fun e => hasByte c e = false) (cutAt c s).
Proof.
  induction s as [|d rest IH]; simpl.
  - constructor; [reflexivity | constructor].
  - destruct (Ascii.eqb d c) eqn:E.
    + constructor; [reflexivity | exact IH].
    + destruct (cutAt c rest) as [|x xs]; [repeat constructor; simpl; now rewrite E |].
      inversion IH; subst. constructor; [simpl; now rewrite E | assumption].
Qed.

Lemma cutAt_app c a b :
  cutAt c (a ++ String c b) = (cutAt c a ++ cutAt c b)%list.
Proof.
  induction a as [|d rest IH]; simpl.
  - now rewrite Ascii.eqb_refl.
  - destruct (Ascii.eqb d c); [now rewrite IH |].
    rewrite IH. destruct (cutAt c rest) eqn:E; [now apply cutAt_not_nil in E |].
    reflexivity.
Qed.

Lemma cutAt_plain c s : hasByte c s = false -> cutAt c s = [s].
Proof.
  induction s as [|d rest IH]; simpl; [reflexivity |].
  destruct (Ascii.eqb d c); [discriminate |]. simpl.
  intros H. now rewrite (IH H).
Qed.

Lemma cutAt_Join c l :
  l <> [] ->
  Forall (fun e => hasByte c e = false) l ->
  cutAt c (strings.Join l (String c EmptyString)) = l.
Proof.
  induction l as [|e rest IH]; [contradiction |]. intros _ Hall.
  inversion Hall as [|? ? He Hrest]; subst.
  destruct rest as [|e' rest'].
  - simpl. now apply cutAt_plain.
  - rewrite Join_cons by discriminate.
    change (e ++ String c EmptyString ++ strings.Join (e' :: rest') (String c EmptyString))
      with (e ++ String c (strings.Join (e' :: rest') (String c EmptyString))).
    rewrite cutAt_app, (cutAt_plain c e He), IH by (discriminate || assumption).
    reflexivity.
Qed.

(** ** [main] and [NewProxy] *)

Lemma main_served_sources (url_Parse : string -> url.URL + string) f p :
  served (main url_Parse f) = Some p ->
  measurements f <> EmptyString
  /\ sources p = strings.Split (measurements f) ",".
Proof.
  unfold main, NewProxy.
  destruct (String.eqb_spec (measurements f) EmptyString); [discriminate |].
  destruct (String.eqb (influxAddr f) EmptyString); [discriminate |].
  destruct (url_Parse (influxAddr f)) as [target | err]; [| discriminate].
  destruct (https f && negb (String.eqb (domain f) EmptyString));
    simpl; intros [= <-]; split; auto.
Qed.

(** X1.  The allow-list that [main] hands to the proxy it serves is the
    -measurements flag cut at its commas: it is never empty, its entries
    joined by commas give the flag back, and no entry has a comma in it. *)
Theorem main_serves_split_allowlist :
  forall (url_Parse : string -> url.URL + string) f p,
    served (main url_Parse f) = Some p ->
    sources p = strings.Split (measurements f) ","
    /\ sources p <> []
    /\ strings.Join (sources p) "," = measurements f
    /\ Forall (fun e => hasByte "," e = false) (sources p).
Proof.
  intros url_Parse f p Hserved.
  destruct (main_served_sources url_Parse f p Hserved) as [_ H].
  rewrite H, Split_cutAt.
  split; [reflexivity |]. split; [apply cutAt_not_nil |].
  split; [apply Join_cutAt | apply cutAt_pieces].
Qed.

Lemma main_serves_split_allowlist_witness :
  sources (mkProxy ["m0"; "m1"]) = strings.Split "m0,m1" ","
  /\ sources (mkProxy ["m0"; "m1"]) <> []
  /\ strings.Join (sources (mkProxy ["m0"; "m1"])) "," = "m0,m1"
  /\ Forall (fun e => hasByte "," e = false) (sources (mkProxy ["m0"; "m1"])).
Proof.
  exact (main_serves_split_allowlist
           (fun addr => inl (url.mkURL "http" "localhost:8086" EmptyString
                               EmptyString))
           (mkFlags "localhost:8080" false EmptyString "."
              "http://localhost:8086" "m0,m1")
           (mkProxy ["m0"; "m1"]) eq_refl).
Defined.

(** X2.  Every allow-list of names without commas can be given on the
    command line: when the flag is such a list joined by commas, the proxy
    that [main] serves has exactly that list. *)
Theorem main_allowlist_from_joined_flag :
  forall (url_Parse : string -> url.URL + string) f l p,
    l <> [] ->
    Forall (fun e => hasByte "," e = false) l ->
    measurements f = strings.Join l "," ->
    served (main url_Parse f) = Some p ->
    sources p = l.
Proof.
  intros url_Parse f l p Hl Hall Hflag Hserved.
  destruct (main_served_sources url_Parse f p Hserved) as [_ H].
  rewrite H, Hflag, Split_cutAt. now apply cutAt_Join.
Qed.

Lemma main_allowlist_from_joined_flag_witness :
  sources (mkProxy ["cpu"; "mem"; "disk"]) = ["cpu"; "mem"; "disk"].
Proof.
  apply (main_allowlist_from_joined_flag
           (fun addr => inl (url.mkURL "http" "localhost:8086" EmptyString
                               EmptyString))
           (mkFlags "localhost:8080" false EmptyString "."
              "http://localhost:8086" "cpu,mem,disk")
           ["cpu"; "mem"; "disk"] (mkProxy ["cpu"; "mem"; "disk"])).
  - discriminate.
  - repeat constructor.
  - reflexivity.
  - reflexivity.
Defined.

(** X3.  [main] stops with [log.Fatal], serving nothing, exactly when the
    -measurements flag is empty, the -addr flag is empty or the address
    does not parse.  It serves with certificates only when -https is set
    together with a -domain; -https without a domain serves plain HTTP on
    the listen address. *)
Theorem main_outcomes :
  forall (url_Parse : string -> url.URL + string) f,
    (served (main url_Parse f) = None <->
     measurements f = EmptyString
     \/ influxAddr f = EmptyString
     \/ exists err, url_Parse (influxAddr f) = inr err)
    /\ (forall addr p dir cache domains,
          main url_Parse f = ServeAutoCert addr p dir cache domains ->
          https f = true /\ domain f <> EmptyString
          /\ addr = listenAddr f /\ cache = cacheDir f
          /\ domains = [domain f])
    /\ (forall p,
          served (main url_Parse f) = Some p ->
          https f = false \/ domain f = EmptyString ->
          exists dir, main url_Parse f = ListenAndServe (listenAddr f) p dir).
Proof.
  intros url_Parse f. unfold main, NewProxy.
  destruct (String.eqb_spec (measurements f) EmptyString) as [Hm | Hm].
  { split; [| split]; simpl; try discriminate. split; auto. }
  destruct (String.eqb_spec (influxAddr f) EmptyString) as [Ha | Ha].
  { split; [| split]; simpl; try discriminate. split; auto. }
  destruct (url_Parse (influxAddr f)) as [target | err] eqn:Hu.
  2: { split; [| split]; simpl; try discriminate.
       split; auto. intros _. right. right. now exists err. }
  destruct (https f) eqn:Hh;
    destruct (String.eqb_spec (domain f) EmptyString) as [Hd | Hd];
    cbn [andb negb served].
  all: split; [| split].
  all: try (split; [discriminate |];
            intros [H | [H | [e H]]]; [contradiction | contradiction |
                                       discriminate]).
  all: try discriminate.
  all: try (intros addr p dir cache domains [= <- <- <- <- <-]; auto).
  all: try (intros p [= <-] _; eexists; reflexivity).
  intros p [= <-] [H | H]; [discriminate | contradiction].
Qed.

(** X4.  A measurement whose name has a comma in it cannot be allowed from
    the command line: whatever the -measurements flag, the proxy that
    [main] serves denies every SELECT that reads such a measurement. *)
Theorem main_comma_name_never_allowed :
  forall (url_Parse : string -> url.URL + string)
         (parse : string -> Statement + ParseError) f p q s m,
    served (main url_Parse f) = Some p ->
    q <> EmptyString ->
    parse q = inl (SelectStmt s) ->
    LeafOf m s ->
    hasByte "," (Name m) = true ->
    allowed parse q (sources p) = Return (Some ErrQueryNotAllowed).
Proof.
  intros url_Parse parse f p q s m Hserved Hq Hp Hleaf Hcomma.
  apply (allowed_select_denied_iff parse q (sources p) s Hq Hp).
  exists m. split; [exact Hleaf |]. intros Hin.
  destruct (main_served_sources url_Parse f p Hserved) as [_ H].
  rewrite H, Split_cutAt in Hin.
  pose proof (cutAt_pieces "," (measurements f)) as Hall.
  rewrite Forall_forall in Hall. apply Hall in Hin. congruence.
Qed.

Lemma main_comma_name_never_allowed_witness :
  allowed ParseStatement
    ("select v FROM " ++ String chDQuote ("a,b" ++ String chDQuote EmptyString))
    ["a"; "b"; "a"; "b"]
  = Return (Some ErrQueryNotAllowed).
Proof.
  eapply (fun s m Hp Hleaf Hcomma =>
            main_comma_name_never_allowed
              (fun addr => inl (url.mkURL "http" "localhost:8086" EmptyString
                                  EmptyString))
              ParseStatement
              (mkFlags "localhost:8080" false EmptyString "."
                 "http://localhost:8086" "a,b,a,b")
              (mkProxy ["a"; "b"; "a"; "b"])
              ("select v FROM "
               ++ String chDQuote ("a,b" ++ String chDQuote EmptyString))
              s m eq_refl ltac:(discriminate) Hp Hleaf Hcomma).
  - vm_compute. reflexivity.
  - eexists. split; [left; reflexivity | constructor].
  - reflexivity.
Defined.

(** X5.  [NewProxy] fails on the empty address without parsing it, and
    with the error of the parse otherwise; when it succeeds the proxy keeps
    the sources as they were passed, in their order, and its director is
    built from the parsed address, so that a GET or POST on /query is
    forwarded exactly when [allowed] admits the query under those
    sources. *)
Theorem NewProxy_result :
  forall (url_Parse : string -> url.URL + string)
         (parse : string -> Statement + ParseError) version commit
         addr sources0,
    (NewProxy url_Parse addr sources0 = inr ErrNoAddr <-> addr = EmptyString)
    /\ (forall err,
          NewProxy url_Parse addr sources0 = inr (ErrURLParse err) <->
          addr <> EmptyString /\ url_Parse addr = inr err)
    /\ (forall p dir,
          NewProxy url_Parse addr sources0 = inl (p, dir) <->
          addr <> EmptyString
          /\ exists target,
               url_Parse addr = inl target
               /\ p = mkProxy sources0 /\ dir = director target)
    /\ (forall p dir r,
          NewProxy url_Parse addr sources0 = inl (p, dir) ->
          URL_Path r = "/query" -> methodAccepted r = true ->
          (forwards (Proxy_ServeHTTP parse version commit p r) <->
           allowed parse (URL_Query_q r) sources0 = Return None)).
Proof.
  intros url_Parse parse version commit addr sources0. unfold NewProxy.
  destruct (String.eqb_spec addr EmptyString) as [Ha | Ha].
  { split; [tauto |]. split; [| split].
    - intros err. split; [discriminate | tauto].
    - intros p dir. split; [discriminate | tauto].
    - discriminate. }
  destruct (url_Parse addr) as [target | err0] eqn:Hu.
  - split; [split; [discriminate | contradiction] |].
    split; [| split].
    + intros err. split; [discriminate | intros [_ H]; discriminate].
    + intros p dir. split.
      * intros [= <- <-]. split; auto. now exists target.
      * intros [_ [t [[= <-] [-> ->]]]]. reflexivity.
    + intros p dir r [= <- <-] Hpath Hm.
      destruct (ServeHTTP_query_runs parse version commit
                  (mkProxy sources0) r Hpath)
        as [[Hm' _] | [[_ [Hadm Htr]] | [_ [err [Hden Htr]]]]];
        [congruence | |]; cbn [sources] in *; rewrite Htr; unfold forwards.
      * split; auto. intros _. exists r. cbn [In]. auto.
      * split; [| congruence]. intros [r' [H | H]]; [discriminate |].
        now apply jsonErrorReply_no_forward in H.
  - split; [split; [discriminate | contradiction] |].
    split; [| split].
    + intros err. split.
      * intros [= <-]. auto.
      * intros [_ [= <-]]. reflexivity.
    + intros p dir. split; [discriminate |].
      intros [_ [t [H _]]]. discriminate.
    + discriminate.
Qed.

(** ** The director *)

(** X6.  The query the director sends on has the parameters of the target
    address followed by the parameters of the request, each as it was: no
    parameter is lost, added or changed, and joining with an empty side
    adds no empty parameter. *)
Theorem director_query_params :
  forall target r,
    queryParams (url.RawQuery (http.Request_URL (director target r)))
    = (queryParams (url.RawQuery target)
       ++ queryParams (url.RawQuery (http.Request_URL r)))%list.
Proof.
  intros target r. unfold director, queryParams. cbn [http.Request_URL url.RawQuery].
  destruct (String.eqb_spec (url.RawQuery target) EmptyString) as [Ht | Ht].
  - rewrite Ht. reflexivity.
  - destruct (String.eqb_spec (url.RawQuery (http.Request_URL r)) EmptyString)
      as [Hr | Hr]; cbn [orb].
    + rewrite Hr, string_app_empty_r, app_nil_r.
      destruct (String.eqb_spec (url.RawQuery target) EmptyString);
        [contradiction | reflexivity].
    + change (url.RawQuery target ++ "&" ++ url.RawQuery (http.Request_URL r))
        with (url.RawQuery target
              ++ String "&" (url.RawQuery (http.Request_URL r))).
      rewrite !Split_cutAt, cutAt_app.
      destruct (String.eqb_spec
                  (url.RawQuery target
                   ++ String "&" (url.RawQuery (http.Request_URL r)))
                  EmptyString) as [He | _]; [| reflexivity].
      destruct (url.RawQuery target); discriminate.
Qed.

(** X7.  The director leaves the method and the path of the request alone
    and touches one header at most: every header other than User-Agent is
    as it was, a User-Agent that the request has is kept, and a request
    without one gets the empty User-Agent.  The request is pointed at the
    host of the target, in the URL and in the Host field alike. *)
Theorem director_frame :
  forall target r,
    let r' := director target r in
    http.Request_Method r' = http.Request_Method r
    /\ url.Path (http.Request_URL r') = url.Path (http.Request_URL r)
    /\ (forall k, k <> "User-Agent" ->
          http.Request_Header r' k = http.Request_Header r k)
    /\ (forall v, http.Request_Header r "User-Agent" = Some v ->
          http.Request_Header r' "User-Agent" = Some v)
    /\ (http.Request_Header r "User-Agent" = None ->
          http.Request_Header r' "User-Agent" = Some [EmptyString])
    /\ http.Request_Host r' = url.Host target
    /\ url.Host (http.Request_URL r') = url.Host target
    /\ url.Scheme (http.Request_URL r') = url.Scheme target.
Proof.
  intros target r. unfold director. cbn.
  split; [reflexivity |]. split; [reflexivity |].
  split; [| split; [| split; [| repeat split]]].
  - intros k Hk.
    destruct (http.Request_Header r "User-Agent"); [reflexivity |].
    unfold http.Header_Set.
    destruct (String.eqb_spec k "User-Agent"); [contradiction | reflexivity].
  - intros v Hv. now rewrite Hv.
  - intros Hnone. rewrite Hnone. unfold http.Header_Set.
    now rewrite String.eqb_refl.
Qed.

(** X8.  With a target address that has no query, directing a request a
    second time changes nothing: what the director sets it finds set. *)
Theorem director_idempotent_without_target_query :
  forall target r,
    url.RawQuery target = EmptyString ->
    let r1 := director target r in
    let r2 := director target r1 in
    http.Request_Method r2 = http.Request_Method r1
    /\ http.Request_URL r2 = http.Request_URL r1
    /\ http.Request_Host r2 = http.Request_Host r1
    /\ forall k, http.Request_Header r2 k = http.Request_Header r1 k.
Proof.
  intros target r Ht. unfold director. cbn. rewrite Ht. cbn.
  repeat split.
  intros k. destruct (http.Request_Header r "User-Agent") eqn:E.
  - now rewrite E.
  - unfold http.Header_Set at 1 2. cbn. reflexivity.
Qed.

Lemma director_idempotent_without_target_query_witness :
  http.Request_URL
    (director (url.mkURL "http" "localhost:8086" EmptyString EmptyString)
       (director (url.mkURL "http" "localhost:8086" EmptyString EmptyString)
          (http.mkRequest "GET"
             (url.mkURL EmptyString EmptyString "/query" "q=select")
             "proxy.example" (fun _ => None))))
  = http.Request_URL
      (director (url.mkURL "http" "localhost:8086" EmptyString EmptyString)
         (http.mkRequest "GET"
            (url.mkURL EmptyString EmptyString "/query" "q=select")
            "proxy.example" (fun _ => None))).
Proof.
  exact (proj1 (proj2
           (director_idempotent_without_target_query
              (url.mkURL "http" "localhost:8086" EmptyString EmptyString)
              (http.mkRequest "GET"
                 (url.mkURL EmptyString EmptyString "/query" "q=select")
                 "proxy.example" (fun _ => None))
              eq_refl))).
Defined.

(** ** The handler on every path *)

Lemma ServeHTTP_Run parse version commit p r :
  Run parse version commit p r (Proxy_ServeHTTP parse version commit p r).
Proof.
  unfold Proxy_ServeHTTP.
  destruct (methodAccepted r) eqn:Hm.
  2: { pose proof Hm as Hm'. unfold methodAccepted in Hm'.
       apply orb_false_iff in Hm'. destruct Hm' as [-> ->].
       cbn [negb andb]. rewrite reportError_jsonErrorReply.
       now apply Run_method. }
  assert (Hgate : negb (String.eqb (Method r) "GET")
                  && negb (String.eqb (Method r) "POST") = false).
  { unfold methodAccepted in Hm.
    destruct (String.eqb (Method r) "GET"), (String.eqb (Method r) "POST");
      simpl in *; congruence. }
  rewrite Hgate.
  destruct (String.eqb_spec (URL_Path r) "/ping") as [Hp | Hp];
    [now apply Run_ping |].
  destruct (String.eqb_spec (URL_Path r) "/write") as [Hw | Hw];
    [now apply Run_write |].
  destruct (String.eqb_spec (URL_Path r) "/query") as [Hq | Hq].
  { pose proof (allowed_never_panics parse (URL_Query_q r) (sources p)) as Hnp.
    cbv zeta.
    destruct (allowed parse (URL_Query_q r) (sources p)) as [[err |] |] eqn:Ha;
      [| | contradiction].
    - rewrite reportError_jsonErrorReply. now apply Run_denied.
    - now apply Run_admitted. }
  destruct (String.eqb_spec (URL_Path r) "/debug/version") as [Hv | Hv];
    [now apply Run_version |].
  now apply Run_not_found.
Qed.

Ltac handler_runs parse version commit p r :=
  let H := fresh "Hrun" in
  pose proof (ServeHTTP_Run parse version commit p r) as H;
  set (tr := Proxy_ServeHTTP parse version commit p r) in *;
  clearbody tr; destruct H; unfold jsonErrorReply, http_Error in *;
  cbn [In filter isWriterCall isForward isAdmission List.length] in *.

(** X9.  The handler hands a request to the backend in two cases only: a
    GET or POST on /ping, and a GET or POST on /query whose query [allowed]
    admits under the sources of the proxy. *)
Theorem ServeHTTP_forwards_iff :
  forall (parse : string -> Statement + ParseError) version commit p r,
    forwards (Proxy_ServeHTTP parse version commit p r) <->
    methodAccepted r = true
    /\ (URL_Path r = "/ping"
        \/ (URL_Path r = "/query"
            /\ allowed parse (URL_Query_q r) (sources p) = Return None)).
Proof.
  intros parse version commit p r. unfold forwards.
  handler_runs parse version commit p r.
  all: split;
    [ intros [r' Hin];
      repeat match goal with
        | H : _ \/ _ |- _ => destruct H
        | H : False |- _ => destruct H
        end; try discriminate; auto
    | intros [Hm [Hp | [Hp Ha]]]; try congruence ].
  all: try (exists r; cbn [In]; now auto).
Qed.

(** X10.  What is handed to the backend is the request that came in, once,
    and a run that hands over writes nothing to the response itself:
    status, headers and body are then the backend's alone. *)
Theorem ServeHTTP_forward_exclusive :
  forall (parse : string -> Statement + ParseError) version commit p r r',
    In (ProxyServeHTTP r') (Proxy_ServeHTTP parse version commit p r) ->
    r' = r
    /\ List.length
         (filter isForward (Proxy_ServeHTTP parse version commit p r)) = 1
    /\ filter isWriterCall (Proxy_ServeHTTP parse version commit p r) = [].
Proof.
  intros parse version commit p r r'.
  handler_runs parse version commit p r.
  all: intros Hin;
    repeat match goal with
      | H : _ \/ _ |- _ => destruct H
      | H : False |- _ => destruct H
      end; try discriminate.
  all: match goal with H : ProxyServeHTTP _ = ProxyServeHTTP _ |- _ =>
         injection H as <- end; repeat split.
Qed.

Lemma ServeHTTP_forward_exclusive_witness :
  mkRequest "POST" "/ping" EmptyString = mkRequest "POST" "/ping" EmptyString
  /\ List.length
       (filter isForward
          (Proxy_ServeHTTP ParseStatement "v1" "c0ffee" (mkProxy ["test"])
             (mkRequest "POST" "/ping" EmptyString))) = 1
  /\ filter isWriterCall
       (Proxy_ServeHTTP ParseStatement "v1" "c0ffee" (mkProxy ["test"])
          (mkRequest "POST" "/ping" EmptyString)) = [].
Proof.
  apply (ServeHTTP_forward_exclusive ParseStatement "v1" "c0ffee"
           (mkProxy ["test"]) (mkRequest "POST" "/ping" EmptyString)
           (mkRequest "POST" "/ping" EmptyString)).
  left. reflexivity.
Defined.


(** X12.  Outside /query and /ping, and for every refused method, the run
    of the handler is a function of the method and the path alone: neither
    the query parameter nor the sources of the proxy nor the parser has a
    part in it. *)
Theorem ServeHTTP_reply_independent_of_query :
  forall (parse parse' : string -> Statement + ParseError)
         version commit p p' r r',
    Method r = Method r' ->
    URL_Path r = URL_Path r' ->
    methodAccepted r = false
    \/ (URL_Path r <> "/query" /\ URL_Path r <> "/ping") ->
    Proxy_ServeHTTP parse version commit p r
    = Proxy_ServeHTTP parse' version commit p' r'.
Proof.
  intros parse parse' version commit p p' r r' Hm Hp Hside.
  unfold Proxy_ServeHTTP. rewrite <- Hm, <- Hp.
  destruct Hside as [Hrefused | [Hq Hping]].
  - unfold methodAccepted in Hrefused. apply orb_false_iff in Hrefused.
    destruct Hrefused as [-> ->]. reflexivity.
  - destruct (negb (String.eqb (Method r) "GET")
              && negb (String.eqb (Method r) "POST")); [reflexivity |].
    destruct (String.eqb_spec (URL_Path r) "/ping"); [contradiction |].
    destruct (String.eqb (URL_Path r) "/write"); [reflexivity |].
    destruct (String.eqb_spec (URL_Path r) "/query"); [contradiction |].
    reflexivity.
Qed.

Lemma ServeHTTP_reply_independent_of_query_witness :
  Proxy_ServeHTTP ParseStatement "v1" "c0ffee" (mkProxy ["test"])
    (mkRequest "GET" "/write" "select * FROM test")
  = Proxy_ServeHTTP (fun _ => inr (messageError "unused")) "v1" "c0ffee"
      (mkProxy []) (mkRequest "GET" "/write" "drop database test").
Proof.
  apply (ServeHTTP_reply_independent_of_query ParseStatement
           (fun _ => inr (messageError "unused")) "v1" "c0ffee"
           (mkProxy ["test"]) (mkProxy [])
           (mkRequest "GET" "/write" "select * FROM test")
           (mkRequest "GET" "/write" "drop database test")
           eq_refl eq_refl).
  right. split; discriminate.
Defined.

(** X13.  The admission check is consulted on /query only, for GET and
    POST only, and once at most; what it returned is what [allowed] gives
    for the query parameter and the sources of the proxy.  No run of the
    handler ends in a panic. *)
Theorem ServeHTTP_admission_only_on_query :
  forall (parse : string -> Statement + ParseError) version commit p r,
    (forall res,
        In (AdmissionReturned res) (Proxy_ServeHTTP parse version commit p r) ->
        methodAccepted r = true /\ URL_Path r = "/query"
        /\ allowed parse (URL_Query_q r) (sources p) = Return res)
    /\ List.length
         (filter isAdmission (Proxy_ServeHTTP parse version commit p r)) <= 1
    /\ ~ In Panicked (Proxy_ServeHTTP parse version commit p r).
Proof.
  intros parse version commit p r.
  handler_runs parse version commit p r.
  all: split; [intros res Hin | split; [auto | intros Hin]];
    repeat match goal with
      | H : _ \/ _ |- _ => destruct H
      | H : False |- _ => destruct H
      end; try discriminate.
  all: match goal with H : AdmissionReturned _ = AdmissionReturned _ |- _ =>
         injection H as <- end; auto.
Qed.

(** ** [allowed] and [lookup] on their own *)

(** X14.  [lookup] answers true exactly for the names that are entries of
    the list, so neither the order of the entries nor a repeated entry
    matters, and looking a name up in two lists put end to end is looking
    it up in either. *)
Theorem lookup_finds_members :
  forall allowlist allowlist' name,
    (lookup allowlist name = true <-> In name allowlist)
    /\ lookup (allowlist ++ allowlist')%list name
       = lookup allowlist name || lookup allowlist' name.
Proof.
  intros allowlist allowlist' name. split; [apply lookup_In |].
  induction allowlist as [|item rest IH]; [reflexivity |].
  simpl. destruct (String.eqb item name); [reflexivity | exact IH].
Qed.

Lemma lookup_same_members allowlist allowlist' name :
  (forall x, In x allowlist <-> In x allowlist') ->
  lookup allowlist name = lookup allowlist' name.
Proof.
  intros H. destruct (lookup allowlist name) eqn:E; symmetry.
  - apply lookup_In. apply H. now apply lookup_In.
  - apply lookup_false_iff. rewrite <- H. now apply lookup_false_iff.
Qed.

(** X15.  The verdict of [allowed] depends on the allow-list as a set: two
    lists with the same entries, in whatever order and however often
    repeated, give the same result on every query. *)
Theorem allowed_allowlist_as_set :
  forall (parse : string -> Statement + ParseError) q allowlist allowlist',
    (forall x, In x allowlist <-> In x allowlist') ->
    allowed parse q allowlist = allowed parse q allowlist'.
Proof.
  intros parse q allowlist allowlist' Hsame. unfold allowed.
  destruct (String.eqb q EmptyString); [reflexivity |].
  destruct (parse q) as [stmt | err]; [| reflexivity].
  destruct (negb _); [reflexivity |].
  destruct stmt; try reflexivity. f_equal.
  induction (Measurements (Sources s)) as [|m rest IH]; [reflexivity |].
  simpl. rewrite (lookup_same_members allowlist allowlist' (Name m) Hsame).
  now rewrite IH.
Qed.

Lemma allowed_allowlist_as_set_witness :
  allowed ParseStatement "select a FROM m1, m0" ["m0"; "m1"]
  = allowed ParseStatement "select a FROM m1, m0" ["m1"; "m0"; "m1"].
Proof.
  apply (allowed_allowlist_as_set ParseStatement "select a FROM m1, m0"
           ["m0"; "m1"] ["m1"; "m0"; "m1"]).
  intros x. simpl. tauto.
Defined.

(** X16.  What [allowed] admits, in full: the query is not empty, it parses
    to a SELECT statement, and the name of every measurement the statement
    reads, subqueries included, is an entry of the allow-list.  Nothing
    else is admitted. *)
Theorem allowed_admits_iff :
  forall (parse : string -> Statement + ParseError) q allowlist,
    allowed parse q allowlist = Return None <->
    q <> EmptyString
    /\ exists s,
         parse q = inl (SelectStmt s)
         /\ forall m, LeafOf m s -> In (Name m) allowlist.
Proof.
  intros parse q allowlist. split.
  - intros H.
    assert (Hq : q <> EmptyString).
    { intros ->. discriminate H. }
    split; [exact Hq |]. pose proof H as H'. unfold allowed in H'.
    destruct (String.eqb q EmptyString); [discriminate |].
    destruct (parse q) as [stmt | err] eqn:Hp; [| discriminate].
    destruct (negb _); [discriminate |].
    destruct stmt as [s | | | | | |]; try discriminate.
    exists s. split; [reflexivity |].
    now apply (allowed_select_admitted_iff parse q allowlist s Hq Hp).
  - intros [Hq [s [Hp Hall]]].
    now apply (allowed_select_admitted_iff parse q allowlist s Hq Hp).
Qed.

(** X17.  The errors of [allowed]: the error of the empty query for the
    empty query and for no other; the wrapped error of the parser exactly
    when a query that is not empty does not parse; apart from these the
    error query not allowed, and never one of the two errors of the
    handler.  The first two do not depend on the allow-list. *)
Theorem allowed_error_kinds :
  forall (parse : string -> Statement + ParseError) q allowlist,
    (allowed parse q allowlist = Return (Some ErrQueryEmpty)
     <-> q = EmptyString)
    /\ (forall e,
          allowed parse q allowlist = Return (Some (ErrParsing e))
          <-> q <> EmptyString /\ parse q = inr e)
    /\ (forall err,
          allowed parse q allowlist = Return (Some err) ->
          err = ErrQueryEmpty \/ err = ErrQueryNotAllowed
          \/ exists e, err = ErrParsing e).
Proof.
  intros parse q allowlist. unfold allowed.
  destruct (String.eqb_spec q EmptyString) as [Hq | Hq].
  { split; [tauto |]. split.
    - intros e. split; [discriminate | tauto].
    - intros err [= <-]. auto. }
  destruct (parse q) as [stmt | e0].
  - assert (Hcase :
      forall err,
        (if negb (strings.HasPrefix (strings.ToLower (Statement_String stmt))
                    "select")
         then Return (Some ErrQueryNotAllowed)
         else match stmt with
              | SelectStmt selectStmt =>
                  Return (allowedMeasurements
                            (Measurements (Sources selectStmt)) allowlist)
              | _ => Panic
              end) = Return (Some err) ->
        err = ErrQueryNotAllowed).
    { intros err. destruct (negb _); [now intros [= <-] |].
      destruct stmt; try discriminate.
      destruct (allowedMeasurements_cases (Measurements (Sources s)) allowlist)
        as [-> | ->]; [discriminate | now intros [= <-]]. }
    split; [| split].
    + split; [| contradiction]. intros H. apply Hcase in H. discriminate.
    + intros e. split.
      * intros H. apply Hcase in H. discriminate.
      * intros [_ H]. discriminate.
    + intros err H. right. left. now apply Hcase.
  - split; [| split].
    + split; [discriminate | contradiction].
    + intros e. split.
      * intros [= <-]. auto.
      * intros [_ [= <-]]. reflexivity.
    + intros err [= <-]. right. right. now exists e0.
Qed.

(** ** The reply of [reportError] *)









